(** * Cascading filter bar and dashboard embedder

    A shallow embedding of [config.ts], [Tabs.tsx] and [Dashboards.tsx].

    JavaScript objects used as dictionaries ([stagedFilters],
    [activeFilters], [filterOptions], [queryBody.filters]) are finite maps
    keyed by strings.  The object handed to [fetchFilterOptions] as
    [dependencies] is walked with [for ... in], so it is kept as an
    association list in insertion order.  The recursive closure
    [getAllDependents] has no termination argument in the source; it is
    embedded with an explicit recursion budget, [None] standing for a
    budget that ran out. *)

From stdpp Require Import base option list relations strings pretty gmap fin_maps.

Open Scope string_scope.
Open Scope list_scope.
Open Scope nat_scope.

(** ** config.ts *)

Inductive FilterType := select_multi | button_group.

Record FilterConfig := {
  name : string;
  label : string;
  field : string;
  type : FilterType;
  listens_to : option (list string)
}.

Record LookmlConfig := { model : string; explore : string }.
Record DashboardConfig := { id : string; dash_label : string }.
Record DateFilterConfig := { date_name : string; date_label : string; date_type : string }.

Record TabsConfig := {
  lookml : LookmlConfig;
  dashboards : list DashboardConfig;
  filters : list FilterConfig;
  date_filter : DateFilterConfig
}.

Definition TABS_CONFIG : TabsConfig := {|
  lookml := {| model := "ecomm"; explore := "order_items" |};
  dashboards := [
    {| id := "nXJRwDcnj1SY3mz3uJtEJt"; dash_label := "Basic visualization examples" |};
    {| id := "lCLlweEWzJ6EdGTgsIHjPB"; dash_label := "Intermediate visualization examples" |};
    {| id := "OYRrqT1Tyxqh9PY06I3rxo"; dash_label := "Advanced visualization examples" |} ];
  filters := [
    {| name := "Country"; label := "Country"; field := "users.country";
       type := select_multi; listens_to := None |};
    {| name := "State"; label := "State"; field := "users.state";
       type := select_multi; listens_to := Some ["Country"] |};
    {| name := "City"; label := "City"; field := "users.city";
       type := select_multi; listens_to := Some ["Country"; "State"] |};
    {| name := "Category"; label := "Category"; field := "products.category";
       type := select_multi; listens_to := None |};
    {| name := "Department"; label := "Department"; field := "products.department";
       type := button_group; listens_to := None |} ];
  date_filter := {| date_name := "Created Date"; date_label := "Created Date";
                    date_type := "simple" |}
|}.

(** ** Array helpers used by the handlers *)

(** [arr.includes(x)] on an array of strings. *)
Definition includes (x : string) (arr : list string) : bool :=
  bool_decide (x ∈ arr).

(** [arr.every(p)]. *)
Definition every {A} (p : A → bool) (arr : list A) : bool := forallb p arr.

(** [arr.join(sep)] on an array of strings. *)
Fixpoint join (sep : string) (arr : list string) : string :=
  match arr with
  | [] => ""
  | [x] => x
  | x :: rest => x +:+ sep +:+ join sep rest
  end.

(** [TABS_CONFIG.filters.find(f => f.name === n)]. *)
Definition findFilter (cfg : TabsConfig) (n : string) : option FilterConfig :=
  find (λ f, bool_decide (name f = n)) (filters cfg).

(** [names.forEach(n => { delete obj[n]; })]. *)
Definition deleteAll {V} (names : list string) (obj : gmap string V) : gmap string V :=
  foldl (λ o n, delete n o) obj names.

(** ** The listens_to graph *)

(** [f.listens_to?.includes(n)]: a filter without [listens_to] listens to
    nothing. *)
Definition listensTo (n : string) (f : FilterConfig) : bool :=
  match listens_to f with
  | Some parents => includes n parents
  | None => false
  end.

(** [c] names a configured filter whose [listens_to] mentions [p]. *)
Definition listens (cfg : TabsConfig) (c p : string) : Prop :=
  ∃ f parents, f ∈ filters cfg ∧ name f = c ∧
               listens_to f = Some parents ∧ p ∈ parents.

(** [d] is a direct or transitive dependent of [p]: its [listens_to] chain
    reaches [p]. *)
Definition dependent (cfg : TabsConfig) (d p : string) : Prop :=
  tc (listens cfg) d p.

Definition acyclic (cfg : TabsConfig) : Prop :=
  ∀ n, ¬ dependent cfg n n.

(** A descending path below [p]: each name listens to the one before it. *)
Fixpoint descent (cfg : TabsConfig) (p : string) (path : list string) : Prop :=
  match path with
  | [] => True
  | c :: path' => listens cfg c p ∧ descent cfg c path'
  end.

(** ** Tabs.tsx: the closure of dependents *)

Definition directChildren (cfg : TabsConfig) (n : string) : list string :=
  name <$> filter (λ f, Is_true (listensTo n f)) (filters cfg).

(** [getAllDependents], with a bound on the recursion depth. *)
Fixpoint getAllDependents (cfg : TabsConfig) (fuel : nat) (n : string)
  : option (list string) :=
  match fuel with
  | O => None
  | S fuel' =>
      let children := directChildren cfg n in
      below ← mapM (getAllDependents cfg fuel') children;
      Some (children ++ mjoin below)
  end.

(** ** Tabs.tsx: handlers on the staged map *)

Definition handleFilterChange (cfg : TabsConfig) (fuel : nat)
    (filterName : string) (newValues : list string)
    (prevStagedFilters : gmap string (list string))
  : option (gmap string (list string)) :=
  let oldValues := default [] (prevStagedFilters !! filterName) in
  let newFilters := <[filterName := newValues]> prevStagedFilters in
  let isPureAddition := every (λ val, includes val newValues) oldValues in
  if negb isPureAddition then
    dependentsToClear ← getAllDependents cfg fuel filterName;
    Some (deleteAll dependentsToClear newFilters)
  else Some newFilters.

Definition handleButtonGroupChange (cfg : TabsConfig) (fuel : nat)
    (filterName : string) (value : string)
    (stagedFilters : gmap string (list string))
  : option (gmap string (list string)) :=
  let newStagedFilters := <[filterName := [value]]> stagedFilters in
  dependentsToClear ← getAllDependents cfg fuel filterName;
  Some (deleteAll dependentsToClear newStagedFilters).

(** A staged map used in the examples below. *)
Definition exampleStaged : gmap string (list string) :=
  {[ "Country" := ["USA"; "Canada"]; "State" := ["Texas"];
     "City" := ["Austin"]; "Category" := ["Jeans"];
     "Department" := ["Women"] ]}.

(** ** Tabs.tsx: fetching the options of a filter *)

Record FilterOption := { value : string; option_label : string }.

(** The body handed to [sdk.run_inline_query]. *)
Record QueryBody := {
  q_model : string;
  q_view : string;
  q_fields : list string;
  q_filters : gmap string string
}.

(** A cell of a result row.  A number stands by the text that
    [Number.prototype.toString] gives for it ("7", "1.5", "1e+21", "NaN"),
    an object or array by the text of its own [toString]; a missing cell
    ([undefined]) is a key absent from the row. *)
Inductive JsValue :=
  | JsNull
  | JsString (s : string)
  | JsNumber (text : string)
  | JsBoolean (b : bool)
  | JsObject (text : string).

(** [v.toString()]; it throws on [null]. *)
Definition toString (v : JsValue) : option string :=
  match v with
  | JsNull => None
  | JsString s => Some s
  | JsNumber text => Some text
  | JsBoolean b => Some (if b then "true" else "false")
  | JsObject text => Some text
  end.

(** A row of the result; [None] is a [null] element of the array. *)
Definition Row : Type := option (gmap string JsValue).

(** What [await sdk.ok(sdk.run_inline_query(...))] comes back with. *)
Inductive QueryResponse :=
  | QueryOk (result : list Row)
  | QueryFailed (error : string).

(** What the component does to the outside world. *)
Inductive Action :=
  | RunInlineQuery (filterName : string) (body : QueryBody)
  | ConsoleError (message : string) (error : string).

(** [obj[k] = v] on an object whose key order is observed. *)
Definition objSet {V} (k : string) (v : V) (obj : list (string * V))
  : list (string * V) :=
  if bool_decide (k ∈ obj.*1)
  then (λ kv, if bool_decide (kv.1 = k) then (k, v) else kv) <$> obj
  else obj ++ [(k, v)].

(** One turn of the [for (const parentFilterName in dependencies)] loop
    that fills [queryBody.filters]. *)
Definition queryStep (cfg : TabsConfig) (qf : gmap string string)
    (kv : string * list string) : gmap string string :=
  let parentFilterName := kv.1 in
  let parentValues := kv.2 in
  if 0 <? length parentValues then
    match findFilter cfg parentFilterName with
    | Some parentConfig => <[field parentConfig := join "," parentValues]> qf
    | None => qf
    end
  else qf.

Definition queryFilters (cfg : TabsConfig)
    (dependencies : option (list (string * list string))) : gmap string string :=
  match dependencies with
  | None => ∅
  | Some deps => foldl (queryStep cfg) ∅ deps
  end.

(** [fetchFilterOptions] up to its [await]: the query it sends, if any. *)
Definition fetchFilterOptions (cfg : TabsConfig) (sdk : bool)
    (filterName : string) (dependencies : option (list (string * list string)))
  : list Action :=
  match findFilter cfg filterName with
  | None => []
  | Some filterConfig =>
      if negb sdk then []
      else [RunInlineQuery filterName
              {| q_model := model (lookml cfg);
                 q_view := explore (lookml cfg);
                 q_fields := [field filterConfig];
                 q_filters := queryFilters cfg dependencies |}]
  end.

(** [result.filter(row => row && row[f] != null).map(row => ...)];
    [None] when a [toString] throws. *)
Definition rowHasField (f : string) (row : Row) : bool :=
  match row with
  | Some r => match r !! f with
              | Some JsNull | None => false
              | Some _ => true
              end
  | None => false
  end.

Definition rowOption (f : string) (row : Row) : option FilterOption :=
  r ← row;
  v ← r !! f;
  s ← toString v;
  s' ← toString v;
  Some {| value := s; option_label := s' |}.

Definition buildOptions (f : string) (result : list Row) : option (list FilterOption) :=
  mapM (rowOption f) (filter (λ row, Is_true (rowHasField f row)) result).

(** The text of a row's cell for field [f], when the row has one that is
    not [null]; and the options a result is expected to give. *)
Definition fieldText (f : string) (row : Row) : option string :=
  r ← row; v ← r !! f; toString v.

Definition optionsOfRows (f : string) (result : list Row) : list FilterOption :=
  omap (λ row, s ← fieldText f row; Some {| value := s; option_label := s |})
       result.

Definition fetchErrorMessage (filterName : string) : string :=
  "Error fetching options for filter: " +:+ filterName.

(** [fetchFilterOptions] from its [await] on: the [try] block's remainder
    and the [catch], as an update of [filterOptions]. *)
Definition fetchFilterOptions_settled (cfg : TabsConfig)
    (filterName : string) (response : QueryResponse)
    (prev : gmap string (list FilterOption))
  : gmap string (list FilterOption) * list Action :=
  match findFilter cfg filterName with
  | None => (prev, [])
  | Some filterConfig =>
      match response with
      | QueryOk result =>
          match buildOptions (field filterConfig) result with
          | Some options => (<[filterName := options]> prev, [])
          | None => (prev, [ConsoleError (fetchErrorMessage filterName) "TypeError"])
          end
      | QueryFailed error =>
          (prev, [ConsoleError (fetchErrorMessage filterName) error])
      end
  end.

(** ** Tabs.tsx: the cascading effect *)

Definition hasParents (f : FilterConfig) : bool :=
  match listens_to f with
  | Some parents => 0 <? length parents
  | None => false
  end.

(** One turn of the inner [forEach] over [depFilter.listens_to], on the
    pair [(parentsWithValues, hasAtLeastOneParentWithValue)]. *)
Definition collectStep (stagedFilters : gmap string (list string))
    (acc : list (string * list string) * bool) (parentName : string)
  : list (string * list string) * bool :=
  match stagedFilters !! parentName with
  | Some parentValues =>
      if 0 <? length parentValues
      then (objSet parentName parentValues acc.1, true)
      else acc
  | None => acc
  end.

Definition collectParents (stagedFilters : gmap string (list string))
    (parents : list string) : list (string * list string) * bool :=
  foldl (collectStep stagedFilters) ([], false) parents.

Definition cascadeFetch (cfg : TabsConfig) (sdk : bool)
    (stagedFilters : gmap string (list string)) (depFilter : FilterConfig)
  : list Action :=
  let '(parentsWithValues, hasAtLeastOneParentWithValue) :=
    collectParents stagedFilters (default [] (listens_to depFilter)) in
  if hasAtLeastOneParentWithValue
  then fetchFilterOptions cfg sdk (name depFilter) (Some parentsWithValues)
  else fetchFilterOptions cfg sdk (name depFilter) None.

Definition cascadeEffect (cfg : TabsConfig) (sdk : bool)
    (stagedFilters : gmap string (list string)) : list Action :=
  let dependentFilters := filter (λ f, Is_true (hasParents f)) (filters cfg) in
  dependentFilters ≫= cascadeFetch cfg sdk stagedFilters.

(** No two configured filters with different names share a field. *)
Definition fieldsDistinct (cfg : TabsConfig) : Prop :=
  ∀ f g, f ∈ filters cfg → g ∈ filters cfg → field f = field g → name f = name g.

(** [fld = text] is the constraint that one of [parents], configured and
    with a non-empty staged selection, puts on a query: its field and its
    staged values joined by commas. *)
Definition parentConstraint (cfg : TabsConfig)
    (staged : gmap string (list string)) (parents : list string)
    (fld text : string) : Prop :=
  ∃ parent values parentConfig,
    parent ∈ parents ∧ staged !! parent = Some values ∧ values ≠ [] ∧
    findFilter cfg parent = Some parentConfig ∧
    field parentConfig = fld ∧ text = join "," values.

(** [p] is one of [parents] and has the non-empty staged selection [vs]. *)
Definition selected (staged : gmap string (list string))
    (parents : list string) (p : string) (vs : list string) : Prop :=
  p ∈ parents ∧ staged !! p = Some vs ∧ vs ≠ [].

(** [fld = text] is what some configured filter with a non-empty staged
    selection would put on a query. *)
Definition recorded (cfg : TabsConfig) (staged : gmap string (list string))
    (fld text : string) : Prop :=
  ∃ p vs pc, staged !! p = Some vs ∧ vs ≠ [] ∧
             findFilter cfg p = Some pc ∧ field pc = fld ∧ text = join "," vs.

(** [act] is the query for [depFilter] scoped by its parents' staged
    values: nothing but their constraints, none if no parent has one. *)
Definition scopedFetch (cfg : TabsConfig) (staged : gmap string (list string))
    (depFilter : FilterConfig) (act : Action) : Prop :=
  ∃ filterConfig qf,
    findFilter cfg (name depFilter) = Some filterConfig ∧
    act = RunInlineQuery (name depFilter)
            {| q_model := model (lookml cfg);
               q_view := explore (lookml cfg);
               q_fields := [field filterConfig];
               q_filters := qf |} ∧
    (∀ fld text,
       qf !! fld = Some text ↔
       parentConstraint cfg staged (default [] (listens_to depFilter)) fld text) ∧
    ((∀ parent, parent ∈ default [] (listens_to depFilter) →
                default [] (staged !! parent) = []) → qf = ∅).

(** ** Tabs.tsx: date range, Update and Reset *)

(** The readings of a [Date] that [formatDate] takes. *)
Record JsDate := { getFullYear : Z; getMonth : nat; getDate : nat }.

(** What the component tells apart in the [dateRange] state: a value
    with [from] and [to]; one without that pair but with [type] (read with
    [value] and [unit]); an object with neither; and a falsy value, which
    [onSelectRange={setDateRange}] can store. *)
Inductive DateRange :=
  | RangeFromTo (from to : JsDate)
  | RangeRelative (range_type : string) (range_value : Z) (range_unit : string)
  | RangeOther
  | RangeMissing.

(** The range has one of the two shapes [handleUpdateClick] formats. *)
Definition hasShape (range : DateRange) : bool :=
  match range with
  | RangeFromTo _ _ | RangeRelative _ _ _ => true
  | RangeOther | RangeMissing => false
  end.

(** A number below 100 in two digits. *)
Definition twoDigits (n : nat) : string :=
  if n <? 10 then "0" +:+ pretty n else pretty n.

Definition defaultDateRange : DateRange := RangeRelative "last" 7 "days".

(** [s.padStart(n, pad)] for a one-character [pad]. *)
Definition padStart (n : nat) (pad : string) (s : string) : string :=
  String.concat "" (replicate (n - String.length s) pad) +:+ s.

Definition formatDate (date : JsDate) : string :=
  let year := pretty (getFullYear date) in
  let month := padStart 2 "0" (pretty (getMonth date + 1)%nat) in
  let day := padStart 2 "0" (pretty (getDate date)) in
  year +:+ "/" +:+ month +:+ "/" +:+ day.

(** [dateFilterString] as [handleUpdateClick] leaves it: it starts
    empty and stays so for a falsy range and for one of neither shape. *)
Definition dateFilterString (dateRange : DateRange) : string :=
  match dateRange with
  | RangeMissing => ""
  | RangeFromTo from to => formatDate from +:+ " to " +:+ formatDate to
  | RangeRelative t v u => t +:+ " " +:+ pretty v +:+ " " +:+ u
  | RangeOther => ""
  end.

Record TabsState := {
  stagedFilters : gmap string (list string);
  activeFilters : gmap string (list string);
  filterOptions : gmap string (list FilterOption);
  dateRange : DateRange;
  isLoading : bool
}.

(** The [useState] initial values. *)
Definition initialTabs : TabsState := {|
  stagedFilters := ∅;
  activeFilters := ∅;
  filterOptions := ∅;
  dateRange := defaultDateRange;
  isLoading := true
|}.

Definition handleUpdateClick (cfg : TabsConfig) (st : TabsState) : TabsState :=
  let s := dateFilterString (dateRange st) in
  let newActiveFilters :=
    <[date_name (date_filter cfg) := if bool_decide (s = "") then [] else [s]]>
      (stagedFilters st) in
  {| stagedFilters := stagedFilters st;
     activeFilters := newActiveFilters;
     filterOptions := filterOptions st;
     dateRange := dateRange st;
     isLoading := isLoading st |}.

Definition handleResetClick (st : TabsState) : TabsState :=
  {| stagedFilters := ∅;
     activeFilters := activeFilters st;
     filterOptions := filterOptions st;
     dateRange := RangeRelative "last" 7 "days";
     isLoading := isLoading st |}.

(** [dashboardFilters]: what the tabs hand to each dashboard. *)
Definition dashboardFilters (activeFilters : gmap string (list string))
  : gmap string string :=
  join "," <$> activeFilters.

(** ** Tabs.tsx: the component as a transition system

    One event per callback the runtime can enter: mounting (both effects
    run), the continuation of a fetch, the continuation of
    [fetchInitialOptions] after its [Promise.all], and the handlers wired
    to the widgets.  A transition yields the next state and the actions
    performed; it fails when [getAllDependents] exhausts its budget. *)

Inductive TabsEvent :=
  | Mounted
  | FetchSettled (filterName : string) (response : QueryResponse)
  | InitialOptionsFetched
  | FilterChanged (filterName : string) (newValues : list string)
  | ButtonGroupChanged (filterName : string) (value : string)
  | DateRangeSelected (range : DateRange)
  | UpdateClicked
  | ResetClicked.

Definition withStaged (st : TabsState) (staged : gmap string (list string))
  : TabsState :=
  {| stagedFilters := staged;
     activeFilters := activeFilters st;
     filterOptions := filterOptions st;
     dateRange := dateRange st;
     isLoading := isLoading st |}.

Definition tabsStep (cfg : TabsConfig) (fuel : nat) (sdk : bool)
    (st : TabsState) (ev : TabsEvent) : option (TabsState * list Action) :=
  match ev with
  | Mounted =>
      let initial :=
        if sdk then filters cfg ≫= (λ f, fetchFilterOptions cfg sdk (name f) None)
        else [] in
      Some ({| stagedFilters := stagedFilters st;
               activeFilters := activeFilters st;
               filterOptions := filterOptions st;
               dateRange := dateRange st;
               isLoading := if sdk then true else isLoading st |},
            initial ++ cascadeEffect cfg sdk (stagedFilters st))
  | FetchSettled filterName response =>
      let '(options, log) :=
        fetchFilterOptions_settled cfg filterName response (filterOptions st) in
      Some ({| stagedFilters := stagedFilters st;
               activeFilters := activeFilters st;
               filterOptions := options;
               dateRange := dateRange st;
               isLoading := isLoading st |}, log)
  | InitialOptionsFetched =>
      Some ({| stagedFilters := stagedFilters st;
               activeFilters := {[ date_name (date_filter cfg) := ["last 7 days"] ]};
               filterOptions := filterOptions st;
               dateRange := dateRange st;
               isLoading := false |}, [])
  | FilterChanged filterName newValues =>
      staged ← handleFilterChange cfg fuel filterName newValues (stagedFilters st);
      Some (withStaged st staged, cascadeEffect cfg sdk staged)
  | ButtonGroupChanged filterName value =>
      staged ← handleButtonGroupChange cfg fuel filterName value (stagedFilters st);
      Some (withStaged st staged, cascadeEffect cfg sdk staged)
  | DateRangeSelected range =>
      Some ({| stagedFilters := stagedFilters st;
               activeFilters := activeFilters st;
               filterOptions := filterOptions st;
               dateRange := range;
               isLoading := isLoading st |}, [])
  | UpdateClicked => Some (handleUpdateClick cfg st, [])
  | ResetClicked =>
      let st' := handleResetClick st in
      Some (st', cascadeEffect cfg sdk (stagedFilters st'))
  end.

(** Running a sequence of events, collecting the actions. *)
Fixpoint tabsRun (cfg : TabsConfig) (fuel : nat) (sdk : bool)
    (st : TabsState) (evs : list TabsEvent) : option (TabsState * list Action) :=
  match evs with
  | [] => Some (st, [])
  | ev :: evs' =>
      '(st1, acts1) ← tabsStep cfg fuel sdk st ev;
      '(st2, acts2) ← tabsRun cfg fuel sdk st1 evs';
      Some (st2, acts1 ++ acts2)
  end.

(** ** Tabs.tsx: what [renderFilter] hands to the widgets *)

(** [stagedFilters[filter.name] ? stagedFilters[filter.name][0] : ''], the
    value of a button group; [None] is [undefined], the first element of
    an empty array. *)
Definition buttonGroupValue (stagedFilters : gmap string (list string))
    (filterName : string) : option string :=
  match stagedFilters !! filterName with
  | Some values => head values
  | None => Some ""
  end.

(** [stagedFilters[filter.name] || []], the values of a multi-select. *)
Definition selectMultiValues (stagedFilters : gmap string (list string))
    (filterName : string) : list string :=
  default [] (stagedFilters !! filterName).

Definition isQuery (a : Action) : bool :=
  match a with RunInlineQuery _ _ => true | _ => false end.

(** A configuration whose only filter listens to itself. *)
Definition exampleCycle : TabsConfig := {|
  lookml := lookml TABS_CONFIG;
  dashboards := [];
  filters := [ {| name := "A"; label := "A"; field := "a";
                  type := select_multi; listens_to := Some ["A"] |} ];
  date_filter := date_filter TABS_CONFIG
|}.

(** ** Dashboards.tsx

    The hooks of [EmbeddedDashboard] run when their dependency arrays
    change; objects in a dependency array are compared by identity, so the
    filter object and the extension SDK carry an address. *)

Module Dashboards.

Record IAllFilters := { address : nat; entries : gmap string string }.

Record EmbeddedDashboardProps := { id : string; filters : IAllFilters }.

(** [extensionSDK], with [lookerHostData?.hostUrl]. *)
Record ExtensionSDK := { sdk_address : nat; hostUrl : option string }.

(** The handle [connect()] resolves to. *)
Definition LookerDashboard : Type := nat.

Inductive Action :=
  | Init (hostUrl : string)
  | Connect (id : string) (theme : string) (filters : gmap string string)
  | UpdateFilters (dashboard : LookerDashboard) (filters : gmap string string)
  | Run (dashboard : LookerDashboard)
  | ConsoleError (message : string) (error : string).

(** A mounted instance: the [dashboard] state variable, the props and
    context of the last render, and the dependency arrays the effect
    and the memoised ref callback were last committed with. *)
Record Embedded := {
  dashboard : option LookerDashboard;
  props : EmbeddedDashboardProps;
  extensionSDK : option ExtensionSDK;
  effectDeps : option LookerDashboard * nat;
  refDeps : string * option nat
}.

(** The body of the [useEffect]. *)
Definition filtersEffect (dashboard : option LookerDashboard)
    (props : EmbeddedDashboardProps) : list Action :=
  match dashboard with
  | Some d => [UpdateFilters d (entries (filters props)); Run d]
  | None => []
  end.

(** The body of [embedCtrRef]; [el] is [false] for a [null] element. *)
Definition embedCtrRef (props : EmbeddedDashboardProps)
    (extensionSDK : option ExtensionSDK) (el : bool) : list Action :=
  match extensionSDK ≫= hostUrl with
  | Some url =>
      if el && negb (bool_decide (url = ""))
      then [Init url; Connect (id props) "Custom" (entries (filters props))]
      else []
  | None => []
  end.

Definition effectDepsOf (dashboard : option LookerDashboard)
    (props : EmbeddedDashboardProps) : option LookerDashboard * nat :=
  (dashboard, address (filters props)).

Definition refDepsOf (props : EmbeddedDashboardProps)
    (extensionSDK : option ExtensionSDK) : string * option nat :=
  (id props, sdk_address <$> extensionSDK).

(** Committing a render: a ref callback whose identity changed is
    detached (called with [null]) and attached again, then the effect
    runs if its dependencies changed.  [prev] is [None] on mount. *)
Definition commit (prev : option Embedded)
    (dashboard : option LookerDashboard) (props : EmbeddedDashboardProps)
    (extensionSDK : option ExtensionSDK) : Embedded * list Action :=
  let refActions :=
    match prev with
    | Some old =>
        if bool_decide (refDeps old = refDepsOf props extensionSDK) then []
        else embedCtrRef (Dashboards.props old) (Dashboards.extensionSDK old) false
             ++ embedCtrRef props extensionSDK true
    | None => embedCtrRef props extensionSDK true
    end in
  let effectActions :=
    match prev with
    | Some old =>
        if bool_decide (effectDeps old = effectDepsOf dashboard props) then []
        else filtersEffect dashboard props
    | None => filtersEffect dashboard props
    end in
  ({| dashboard := dashboard;
      props := props;
      extensionSDK := extensionSDK;
      effectDeps := effectDepsOf dashboard props;
      refDeps := refDepsOf props extensionSDK |},
   refActions ++ effectActions).

Inductive Event :=
  | Rendered (props : EmbeddedDashboardProps) (extensionSDK : option ExtensionSDK)
  | Connected (dashboardInstance : LookerDashboard)
  | ConnectFailed (error : string).

(** One callback of the instance; [None] is the component before its
    first render. *)
Definition step (st : option Embedded) (ev : Event)
  : option Embedded * list Action :=
  match ev with
  | Rendered props extensionSDK =>
      let '(st', acts) := commit st (st ≫= dashboard) props extensionSDK in
      (Some st', acts)
  | Connected dashboardInstance =>
      match st with
      | Some old =>
          let '(st', acts) :=
            commit st (Some dashboardInstance)
                   (Dashboards.props old) (Dashboards.extensionSDK old) in
          (Some st', acts)
      | None => (None, [])
      end
  | ConnectFailed error => (st, [ConsoleError "Connection error" error])
  end.

Fixpoint run (st : option Embedded) (evs : list Event)
  : option Embedded * list Action :=
  match evs with
  | [] => (st, [])
  | ev :: evs' =>
      let '(st1, acts1) := step st ev in
      let '(st2, acts2) := run st1 evs' in
      (st2, acts1 ++ acts2)
  end.

Definition isConnect (a : Action) : bool :=
  match a with Connect _ _ _ => true | _ => false end.

(** A render that leaves the dashboard id and the extension SDK as
    they were: only the filter object may be a new one. *)
Definition sameTab (props0 : EmbeddedDashboardProps)
    (sdk0 : option ExtensionSDK) (ev : Event) : Prop :=
  match ev with
  | Rendered props extensionSDK => id props = id props0 ∧ extensionSDK = sdk0
  | _ => True
  end.

(** What holds of an instance mounted with [props0] and [sdk0] as long
    as only its filters change. *)
Definition settled (props0 : EmbeddedDashboardProps)
    (sdk0 : option ExtensionSDK) (st : Embedded) : Prop :=
  refDeps st = refDepsOf props0 sdk0 ∧
  id (props st) = id props0 ∧
  extensionSDK st = sdk0 ∧
  effectDeps st = effectDepsOf (dashboard st) (props st).

(** The connections opened among some actions. *)
Definition connects (acts : list Action) : list Action :=
  filter (λ a, Is_true (isConnect a)) acts.

(** What the embedder is expected to do once mounted, event by event,
    given the handle it holds and the filter object of the latest render:
    a render with a new filter object pushes it to the handle, if there
    is one; a connection that resolves with a new handle receives the
    latest filters; a failure is logged. *)
Definition expectedStep (handle : option LookerDashboard)
    (current : IAllFilters) (ev : Event) : list Action :=
  match ev with
  | Rendered p _ =>
      match handle with
      | Some d =>
          if bool_decide (address (filters p) = address current) then []
          else [UpdateFilters d (entries (filters p)); Run d]
      | None => []
      end
  | Connected d =>
      if bool_decide (handle = Some d) then []
      else [UpdateFilters d (entries current); Run d]
  | ConnectFailed error => [ConsoleError "Connection error" error]
  end.

(** The handle held after an event: the one of the latest resolution. *)
Definition nextHandle (handle : option LookerDashboard) (ev : Event)
  : option LookerDashboard :=
  match ev with Connected d => Some d | _ => handle end.

(** The filter object of the latest render. *)
Definition nextFilters (current : IAllFilters) (ev : Event) : IAllFilters :=
  match ev with Rendered p _ => filters p | _ => current end.

Fixpoint expectedActions (handle : option LookerDashboard)
    (current : IAllFilters) (evs : list Event) : list Action :=
  match evs with
  | [] => []
  | ev :: evs' =>
      expectedStep handle current ev
      ++ expectedActions (nextHandle handle ev) (nextFilters current ev) evs'
  end.

(** The dependency arrays an instance remembers are those of its own
    props, context and state. *)
Definition coherent (st : Embedded) : Prop :=
  refDeps st = refDepsOf (props st) (extensionSDK st) ∧
  effectDeps st = effectDepsOf (dashboard st) (props st).

(** [hostUrl] is there and truthy. *)
Definition usableHost (extensionSDK : option ExtensionSDK) : bool :=
  match extensionSDK ≫= hostUrl with
  | Some url => negb (bool_decide (url = ""))
  | None => false
  end.

Definition rendersWithoutHost (ev : Event) : Prop :=
  match ev with
  | Rendered _ extensionSDK => usableHost extensionSDK = false
  | _ => True
  end.

Definition isConnected (ev : Event) : bool :=
  match ev with Connected _ => true | _ => false end.

Definition isPush (a : Action) : bool :=
  match a with UpdateFilters _ _ | Run _ => true | _ => false end.

(** Actions that come in the pairs the source writes: [init] then
    [connect], [updateFilters] then [run] on the same handle. *)
Inductive paired : list Action → Prop :=
  | paired_nil : paired []
  | paired_connect url id theme fs rest :
      paired rest → paired (Init url :: Connect id theme fs :: rest)
  | paired_push d fs rest :
      paired rest → paired (UpdateFilters d fs :: Run d :: rest)
  | paired_log message error rest :
      paired rest → paired (ConsoleError message error :: rest).

End Dashboards.

(** Membership of a literal string in a literal list of other strings. *)
Ltac no_elem H :=
  repeat (apply elem_of_cons in H as [H|H]; [discriminate H|]);
  by apply elem_of_nil in H.

(** * Properties *)

(** ** The listens_to graph and [getAllDependents] *)

Section Graph.
Variable cfg : TabsConfig.

Lemma elem_of_directChildren (c p : string) :
  c ∈ directChildren cfg p ↔ listens cfg c p.
Proof.
  unfold directChildren, listens, listensTo, includes.
  rewrite list_elem_of_fmap. split.
  - intros (f & -> & Hf). apply list_elem_of_filter in Hf as [Hl Hf].
    destruct (listens_to f) as [parents|] eqn:E; [|done].
    apply bool_decide_unpack in Hl. by exists f, parents.
  - intros (f & parents & Hf & <- & E & Hp). exists f. split; [done|].
    apply list_elem_of_filter. split; [|done].
    rewrite E. by apply bool_decide_pack.
Qed.

Lemma dependent_inv (d p : string) :
  dependent cfg d p →
  listens cfg d p ∨ ∃ c, dependent cfg d c ∧ listens cfg c p.
Proof.
  unfold dependent. induction 1 as [x y H|x y z H Hyz IH].
  - by left.
  - right. destruct IH as [IH|(c & Hc & Hcz)].
    + exists y. split; [by apply tc_once|done].
    + exists c. split; [by eapply tc_l|done].
Qed.

Lemma dependent_is_filter (d p : string) :
  dependent cfg d p → d ∈ name <$> filters cfg.
Proof.
  unfold dependent.
  induction 1 as [x y (f & ? & Hf & <- & _)|x y z (f & ? & Hf & <- & _) _ _];
    by apply list_elem_of_fmap_2.
Qed.

Lemma getAllDependents_unfold (fuel : nat) (n : string) :
  getAllDependents cfg (S fuel) n =
    below ← mapM (getAllDependents cfg fuel) (directChildren cfg n);
    Some (directChildren cfg n ++ mjoin below).
Proof. reflexivity. Qed.

Lemma getAllDependents_S_inv (fuel : nat) (n : string) (l : list string) :
  getAllDependents cfg (S fuel) n = Some l →
  ∃ below,
    Forall2 (λ c lc, getAllDependents cfg fuel c = Some lc)
            (directChildren cfg n) below ∧
    l = directChildren cfg n ++ mjoin below.
Proof.
  rewrite getAllDependents_unfold. intros H.
  destruct (mapM _ _) as [below|] eqn:E; simplify_eq/=.
  exists below. split; [by apply mapM_Some_1|done].
Qed.

(** A larger budget does not change a result already obtained. *)
Lemma getAllDependents_mono (fuel fuel' : nat) (n : string) (l : list string) :
  getAllDependents cfg fuel n = Some l → fuel ≤ fuel' →
  getAllDependents cfg fuel' n = Some l.
Proof.
  revert fuel' n l. induction fuel as [|fuel IH]; intros fuel' n l H Hle; [done|].
  destruct fuel' as [|fuel']; [lia|].
  apply getAllDependents_S_inv in H as (below & Hall & ->).
  rewrite getAllDependents_unfold.
  assert (mapM (getAllDependents cfg fuel') (directChildren cfg n) = Some below) as ->.
  { apply mapM_Some_2. eapply Forall2_impl; [done|].
    intros c lc Hc. apply IH; [done|lia]. }
  done.
Qed.

(** Every name the closure returns is a dependent. *)
Lemma getAllDependents_sound (fuel : nat) (n d : string) (l : list string) :
  getAllDependents cfg fuel n = Some l → d ∈ l → dependent cfg d n.
Proof.
  revert n d l. induction fuel as [|fuel IH]; intros n d l H Hd; [done|].
  apply getAllDependents_S_inv in H as (below & Hall & ->).
  apply elem_of_app in Hd as [Hd|Hd].
  - apply tc_once. by apply elem_of_directChildren.
  - apply list_elem_of_join in Hd as (lc & Hdlc & Hlc).
    apply list_elem_of_lookup in Hlc as [i Hi].
    destruct (Forall2_lookup_r _ _ _ _ _ Hall Hi) as (c & Hc & Hrec).
    eapply tc_r; [by eapply IH|].
    apply elem_of_directChildren. by eapply list_elem_of_lookup_2.
Qed.

(** Every dependent is among the names the closure returns. *)
Lemma getAllDependents_complete (fuel : nat) (n d : string) (l : list string) :
  getAllDependents cfg fuel n = Some l → dependent cfg d n → d ∈ l.
Proof.
  revert n d l. induction fuel as [|fuel IH]; intros n d l H Hd; [done|].
  apply getAllDependents_S_inv in H as (below & Hall & ->).
  apply elem_of_app.
  apply dependent_inv in Hd as [Hd|(c & Hdc & Hc)].
  - left. by apply elem_of_directChildren.
  - right. apply elem_of_directChildren, list_elem_of_lookup in Hc as [i Hi].
    destruct (Forall2_lookup_l _ _ _ _ _ Hall Hi) as (lc & Hlc & Hrec).
    apply list_elem_of_join. exists lc. split; [by eapply IH|].
    by eapply list_elem_of_lookup_2.
Qed.

(** A budget that runs out leaves a descending path as long as the
    budget. *)
Lemma getAllDependents_None_descent (fuel : nat) (n : string) :
  getAllDependents cfg fuel n = None →
  ∃ path, length path = fuel ∧ descent cfg n path.
Proof.
  revert n. induction fuel as [|fuel IH]; intros n H.
  - by exists [].
  - rewrite getAllDependents_unfold in H.
    destruct (mapM _ _) as [below|] eqn:E; [done|].
    apply mapM_None_1, Exists_exists in E as (c & Hc & Hnone).
    destruct (IH c Hnone) as (path & Hlen & Hpath).
    exists (c :: path). split; [simpl; congruence|].
    split; [by apply elem_of_directChildren|done].
Qed.

Lemma descent_dependent (p x : string) (path : list string) :
  descent cfg p path → x ∈ path → dependent cfg x p.
Proof.
  revert p. induction path as [|c path IH]; intros p Hpath Hx.
  - by apply elem_of_nil in Hx.
  - destruct Hpath as [Hc Hpath]. apply elem_of_cons in Hx as [->|Hx].
    + by apply tc_once.
    + eapply tc_r; [by apply IH|done].
Qed.

Lemma descent_NoDup (p : string) (path : list string) :
  acyclic cfg → descent cfg p path → NoDup path.
Proof.
  intros Hacyc. revert p. induction path as [|c path IH]; intros p Hpath.
  - constructor.
  - destruct Hpath as [Hc Hpath]. constructor; [|by eapply IH].
    intros Hin. apply (Hacyc c). by eapply descent_dependent.
Qed.

Lemma descent_length (p : string) (path : list string) :
  acyclic cfg → descent cfg p path → length path ≤ length (filters cfg).
Proof.
  intros Hacyc Hpath.
  rewrite <- (length_fmap name (filters cfg)).
  apply submseteq_length, NoDup_submseteq; [by eapply descent_NoDup|].
  intros x Hx. eapply dependent_is_filter, descent_dependent; done.
Qed.

(** On an acyclic graph a budget above the number of filters is enough. *)
Lemma getAllDependents_total (fuel : nat) (n : string) :
  acyclic cfg → length (filters cfg) < fuel →
  is_Some (getAllDependents cfg fuel n).
Proof.
  intros Hacyc Hfuel.
  destruct (getAllDependents cfg fuel n) as [l|] eqn:E; [by eexists|].
  apply getAllDependents_None_descent in E as (path & Hlen & Hpath).
  apply descent_length in Hpath; [lia|done].
Qed.

Lemma acyclic_not_self (fuel : nat) (n : string) (l : list string) :
  acyclic cfg → getAllDependents cfg fuel n = Some l → n ∉ l.
Proof.
  intros Hacyc H Hin. apply (Hacyc n). by eapply getAllDependents_sound.
Qed.

End Graph.

(** ** The shipped configuration *)

Lemma TABS_CONFIG_acyclic : acyclic TABS_CONFIG.
Proof.
  intros n H.
  pose proof (dependent_is_filter _ _ _ H) as Hn. simpl in Hn.
  repeat (apply elem_of_cons in Hn as [->|Hn]);
    try (by apply elem_of_nil in Hn).
  - apply (getAllDependents_complete _ 6 _ _ ["State"; "City"; "City"]) in H;
      [|reflexivity].
    no_elem H.
  - apply (getAllDependents_complete _ 6 _ _ ["City"]) in H; [|reflexivity].
    no_elem H.
  - apply (getAllDependents_complete _ 6 _ _ []) in H; [|reflexivity].
    no_elem H.
  - apply (getAllDependents_complete _ 6 _ _ []) in H; [|reflexivity].
    no_elem H.
  - apply (getAllDependents_complete _ 6 _ _ []) in H; [|reflexivity].
    no_elem H.
Qed.

Example getAllDependents_Country :
  getAllDependents TABS_CONFIG 6 "Country" = Some ["State"; "City"; "City"].
Proof. reflexivity. Qed.

Example getAllDependents_Department :
  getAllDependents TABS_CONFIG 6 "Department" = Some [].
Proof. reflexivity. Qed.

(** A filter that listens to itself exhausts every budget. *)
Example getAllDependents_cycle :
  let loop := {| lookml := lookml TABS_CONFIG; dashboards := [];
                 filters := [ {| name := "A"; label := "A"; field := "a";
                                 type := select_multi;
                                 listens_to := Some ["A"] |} ];
                 date_filter := date_filter TABS_CONFIG |} in
  ∀ fuel, getAllDependents loop fuel "A" = None.
Proof. intros loop fuel. induction fuel as [|fuel IH]; [done|]. simpl. by rewrite IH. Qed.

(** ** The handlers on the staged map *)

Section Handlers.
Variable cfg : TabsConfig.

Lemma lookup_deleteAll {V} (names : list string) (obj : gmap string V) (k : string) :
  deleteAll names obj !! k = if decide (k ∈ names) then None else obj !! k.
Proof.
  unfold deleteAll. revert obj.
  induction names as [|n names IH]; intros obj.
  - case_decide as Hin; [by apply elem_of_nil in Hin|done].
  - cbn [foldl]. rewrite IH.
    destruct (decide (k ∈ names)) as [Hin|Hnin].
    + case_decide as Hin'; [done|]. exfalso. apply Hin'. by right.
    + destruct (decide (k = n)) as [->|Hne].
      * rewrite lookup_delete_eq. case_decide as Hin'; [done|].
        exfalso. apply Hin'. by left.
      * rewrite lookup_delete_ne; [|done].
        case_decide as Hin'; [|done].
        apply elem_of_cons in Hin' as [?|?]; done.
Qed.

Lemma every_includes (old new : list string) :
  every (λ val, includes val new) old = true ↔ ∀ v, v ∈ old → v ∈ new.
Proof.
  unfold every, includes. rewrite forallb_forall. split.
  - intros H v Hv. apply list_elem_of_In in Hv. apply H in Hv.
    by apply bool_decide_eq_true in Hv.
  - intros H v Hv. apply bool_decide_eq_true, H. by apply list_elem_of_In.
Qed.

(** What either handler leaves behind once the closure was computed. *)
Lemma cleared_lookup (fuel : nat) (filterName : string)
    (values : list string) (staged : gmap string (list string))
    (deps : list string) :
  acyclic cfg →
  getAllDependents cfg fuel filterName = Some deps →
  let staged' := deleteAll deps (<[filterName := values]> staged) in
  staged' !! filterName = Some values ∧
  (∀ d, dependent cfg d filterName → staged' !! d = None) ∧
  (∀ k, k ≠ filterName → ¬ dependent cfg k filterName →
        staged' !! k = staged !! k).
Proof.
  intros Hacyc Hdeps staged'. subst staged'. repeat split.
  - rewrite lookup_deleteAll, decide_False; [by rewrite lookup_insert_eq|].
    by eapply acyclic_not_self.
  - intros d Hd. rewrite lookup_deleteAll, decide_True; [done|].
    by eapply getAllDependents_complete.
  - intros k Hne Hnd. rewrite lookup_deleteAll, decide_False.
    + by rewrite lookup_insert_ne.
    + intros Hin. apply Hnd. by eapply getAllDependents_sound.
Qed.

End Handlers.

(** C10.  On an acyclic listens_to graph, [getAllDependents] returns for
    every starting name: every recursion budget above the number of
    configured filters yields the same list, and that list contains every
    direct and transitive dependent of the name. *)
Theorem getAllDependents_terminates_complete (cfg : TabsConfig) (n : string) :
  acyclic cfg →
  ∃ l, (∀ fuel, length (filters cfg) < fuel →
                getAllDependents cfg fuel n = Some l) ∧
       (∀ d, dependent cfg d n → d ∈ l).
Proof.
  intros Hacyc.
  destruct (getAllDependents_total cfg (S (length (filters cfg))) n Hacyc)
    as [l Hl]; [lia|].
  exists l. split.
  - intros fuel Hfuel. eapply getAllDependents_mono; [done|lia].
  - intros d Hd. by eapply getAllDependents_complete.
Qed.

Lemma getAllDependents_terminates_complete_witness :
  acyclic TABS_CONFIG ∧
  ∃ l, (∀ fuel, length (filters TABS_CONFIG) < fuel →
                getAllDependents TABS_CONFIG fuel "Country" = Some l) ∧
       (∀ d, dependent TABS_CONFIG d "Country" → d ∈ l).
Proof.
  split; [exact TABS_CONFIG_acyclic|].
  exact (getAllDependents_terminates_complete TABS_CONFIG "Country"
           TABS_CONFIG_acyclic).
Defined.

(** C1.  When [handleFilterChange] drops at least one previously staged
    value of the changed filter (an empty new selection included), the
    handler returns a staged map in which no direct or transitive
    dependent of that filter has an entry. *)
Theorem handleFilterChange_removal_clears (cfg : TabsConfig) (fuel : nat)
    (filterName : string) (newValues : list string)
    (prev : gmap string (list string)) (v : string) :
  acyclic cfg → length (filters cfg) < fuel →
  v ∈ default [] (prev !! filterName) → v ∉ newValues →
  ∃ staged,
    handleFilterChange cfg fuel filterName newValues prev = Some staged ∧
    ∀ d, dependent cfg d filterName → staged !! d = None.
Proof.
  intros Hacyc Hfuel Hold Hnew. unfold handleFilterChange.
  destruct (every _ _) eqn:E.
  { exfalso. apply Hnew. by eapply every_includes. }
  destruct (getAllDependents_total cfg fuel filterName Hacyc Hfuel) as [deps Hdeps].
  simpl. rewrite Hdeps. simpl. eexists. split; [done|].
  by eapply cleared_lookup.
Qed.

Lemma handleFilterChange_removal_clears_witness :
  ("USA" ∈ default [] (exampleStaged !! "Country")) ∧
  ("USA" ∉ ["Canada"]) ∧
  ∃ staged,
    handleFilterChange TABS_CONFIG 6 "Country" ["Canada"] exampleStaged
      = Some staged ∧
    ∀ d, dependent TABS_CONFIG d "Country" → staged !! d = None.
Proof.
  assert (H1 : "USA" ∈ default [] (exampleStaged !! "Country")).
  { replace (default [] (exampleStaged !! "Country")) with ["USA"; "Canada"]
      by (vm_compute; reflexivity).
    by left. }
  assert (H2 : "USA" ∉ ["Canada"]).
  { intros H. no_elem H. }
  split; [exact H1|]. split; [exact H2|].
  apply (handleFilterChange_removal_clears TABS_CONFIG 6 "Country" ["Canada"]
           exampleStaged "USA" TABS_CONFIG_acyclic); [simpl; lia|exact H1|exact H2].
Defined.

Example handleFilterChange_cleared_Country :
  handleFilterChange TABS_CONFIG 6 "Country" [] exampleStaged
  = Some {[ "Country" := []; "Category" := ["Jeans"]; "Department" := ["Women"] ]}.
Proof. vm_compute. reflexivity. Qed.

Example handleFilterChange_replaced_State :
  handleFilterChange TABS_CONFIG 6 "State" ["Ohio"] exampleStaged
  = Some {[ "Country" := ["USA"; "Canada"]; "State" := ["Ohio"];
            "Category" := ["Jeans"]; "Department" := ["Women"] ]}.
Proof. vm_compute. reflexivity. Qed.

(** C2.  When the new selection handed to [handleFilterChange] contains
    every previously staged value of the changed filter, the handler only
    stores the new selection: the staged entry of every dependent filter
    is what it was. *)
Theorem handleFilterChange_addition_keeps (cfg : TabsConfig) (fuel : nat)
    (filterName : string) (newValues : list string)
    (prev : gmap string (list string)) :
  acyclic cfg →
  (∀ v, v ∈ default [] (prev !! filterName) → v ∈ newValues) →
  handleFilterChange cfg fuel filterName newValues prev
    = Some (<[filterName := newValues]> prev) ∧
  ∀ d, dependent cfg d filterName →
       <[filterName := newValues]> prev !! d = prev !! d.
Proof.
  intros Hacyc Hsup. split.
  - unfold handleFilterChange.
    by replace (every _ _) with true by (symmetry; by apply every_includes).
  - intros d Hd. apply lookup_insert_ne. intros ->. by apply (Hacyc d).
Qed.

Lemma handleFilterChange_addition_keeps_witness :
  handleFilterChange TABS_CONFIG 6 "Country" ["USA"; "Canada"; "Mexico"]
    exampleStaged
    = Some (<["Country" := ["USA"; "Canada"; "Mexico"]]> exampleStaged) ∧
  ∀ d, dependent TABS_CONFIG d "Country" →
       <["Country" := ["USA"; "Canada"; "Mexico"]]> exampleStaged !! d
       = exampleStaged !! d.
Proof.
  apply (handleFilterChange_addition_keeps TABS_CONFIG 6 "Country"
           ["USA"; "Canada"; "Mexico"] exampleStaged TABS_CONFIG_acyclic).
  intros v Hv.
  replace (default [] (exampleStaged !! "Country")) with ["USA"; "Canada"] in Hv
    by (vm_compute; reflexivity).
  apply elem_of_cons in Hv as [->|Hv]; [by left|].
  apply list_elem_of_singleton in Hv as ->. right. by left.
Defined.

(** C3.  [handleButtonGroupChange] returns, whatever the old and the new
    value, a staged map in which no direct or transitive dependent of the
    changed filter has an entry and the changed filter holds the
    one-element list of the new value. *)
Theorem handleButtonGroupChange_clears (cfg : TabsConfig) (fuel : nat)
    (filterName value : string) (staged : gmap string (list string)) :
  acyclic cfg → length (filters cfg) < fuel →
  ∃ staged',
    handleButtonGroupChange cfg fuel filterName value staged = Some staged' ∧
    (∀ d, dependent cfg d filterName → staged' !! d = None) ∧
    staged' !! filterName = Some [value].
Proof.
  intros Hacyc Hfuel. unfold handleButtonGroupChange.
  destruct (getAllDependents_total cfg fuel filterName Hacyc Hfuel) as [deps Hdeps].
  rewrite Hdeps. simpl. eexists. split; [done|].
  destruct (cleared_lookup cfg fuel filterName [value] staged deps Hacyc Hdeps)
    as (Hself & Hdep & _).
  by split.
Qed.

Lemma handleButtonGroupChange_clears_witness :
  ∃ staged',
    handleButtonGroupChange TABS_CONFIG 6 "Department" "Men" exampleStaged
      = Some staged' ∧
    (∀ d, dependent TABS_CONFIG d "Department" → staged' !! d = None) ∧
    staged' !! "Department" = Some ["Men"].
Proof.
  apply (handleButtonGroupChange_clears TABS_CONFIG 6 "Department" "Men"
           exampleStaged TABS_CONFIG_acyclic).
  simpl; lia.
Defined.

(** C9.  Both [handleFilterChange] and [handleButtonGroupChange] return a
    staged map in which the changed filter holds exactly the new
    selection and every key that is neither the changed filter nor one of
    its direct or transitive dependents has the entry it had before. *)
Theorem handlers_frame (cfg : TabsConfig) (fuel : nat) (filterName : string)
    (staged : gmap string (list string)) :
  acyclic cfg → length (filters cfg) < fuel →
  (∀ newValues, ∃ staged',
     handleFilterChange cfg fuel filterName newValues staged = Some staged' ∧
     staged' !! filterName = Some newValues ∧
     ∀ k, k ≠ filterName → ¬ dependent cfg k filterName →
          staged' !! k = staged !! k) ∧
  (∀ value, ∃ staged',
     handleButtonGroupChange cfg fuel filterName value staged = Some staged' ∧
     staged' !! filterName = Some [value] ∧
     ∀ k, k ≠ filterName → ¬ dependent cfg k filterName →
          staged' !! k = staged !! k).
Proof.
  intros Hacyc Hfuel.
  destruct (getAllDependents_total cfg fuel filterName Hacyc Hfuel) as [deps Hdeps].
  split.
  - intros newValues. unfold handleFilterChange.
    destruct (every _ _); simpl.
    + eexists. split; [done|]. split; [apply lookup_insert_eq|].
      intros k Hne _. by apply lookup_insert_ne.
    + rewrite Hdeps. simpl. eexists. split; [done|].
      destruct (cleared_lookup cfg fuel filterName newValues staged deps
                  Hacyc Hdeps) as (Hself & _ & Hframe).
      by split.
  - intros value. unfold handleButtonGroupChange. rewrite Hdeps. simpl.
    eexists. split; [done|].
    destruct (cleared_lookup cfg fuel filterName [value] staged deps
                Hacyc Hdeps) as (Hself & _ & Hframe).
    by split.
Qed.

Lemma handlers_frame_witness :
  (∀ newValues, ∃ staged',
     handleFilterChange TABS_CONFIG 6 "State" newValues exampleStaged
       = Some staged' ∧
     staged' !! "State" = Some newValues ∧
     ∀ k, k ≠ "State" → ¬ dependent TABS_CONFIG k "State" →
          staged' !! k = exampleStaged !! k) ∧
  (∀ value, ∃ staged',
     handleButtonGroupChange TABS_CONFIG 6 "State" value exampleStaged
       = Some staged' ∧
     staged' !! "State" = Some [value] ∧
     ∀ k, k ≠ "State" → ¬ dependent TABS_CONFIG k "State" →
          staged' !! k = exampleStaged !! k).
Proof.
  apply (handlers_frame TABS_CONFIG 6 "State" exampleStaged TABS_CONFIG_acyclic).
  simpl; lia.
Defined.

(** ** Fetching options *)

Lemma findFilter_Some (cfg : TabsConfig) (n : string) (f : FilterConfig) :
  findFilter cfg n = Some f → f ∈ filters cfg ∧ name f = n.
Proof.
  unfold findFilter. intros H. apply find_some in H as [Hin Hn].
  split; [by apply list_elem_of_In|].
  by apply bool_decide_eq_true in Hn.
Qed.

Lemma findFilter_elem (cfg : TabsConfig) (f : FilterConfig) :
  f ∈ filters cfg → ∃ f', findFilter cfg (name f) = Some f'.
Proof.
  unfold findFilter. intros Hin.
  destruct (find _ _) as [f'|] eqn:E; [by eexists|].
  apply list_elem_of_In in Hin.
  pose proof (find_none _ _ E f Hin) as Hf. simpl in Hf.
  by apply bool_decide_eq_false in Hf.
Qed.

Lemma buildOptions_spec (f : string) (result : list Row) :
  buildOptions f result = Some (optionsOfRows f result).
Proof.
  unfold buildOptions, optionsOfRows.
  induction result as [|row result IH]; [done|].
  rewrite filter_cons.
  destruct row as [r|]; simpl; [|exact IH].
  destruct (r !! f) as [v|] eqn:E; simpl; [|exact IH].
  destruct v; simpl; rewrite ?E; simpl; rewrite ?IH; done.
Qed.

(** C5.  Once the query of a fetch settles: a failure is logged and the
    filter-options map stays exactly as it was, with no further query; a
    success stores, under the filter's name, one [{value, label}] pair
    per row whose cell for the filter's field is present and not null,
    both components being the cell's text. *)
Theorem fetchFilterOptions_settled_spec (cfg : TabsConfig)
    (filterName : string) (filterConfig : FilterConfig)
    (prev : gmap string (list FilterOption)) :
  findFilter cfg filterName = Some filterConfig →
  (∀ error,
     fetchFilterOptions_settled cfg filterName (QueryFailed error) prev
     = (prev, [ConsoleError (fetchErrorMessage filterName) error])) ∧
  (∀ result,
     fetchFilterOptions_settled cfg filterName (QueryOk result) prev
     = (<[filterName := optionsOfRows (field filterConfig) result]> prev, [])).
Proof.
  intros Hfind. unfold fetchFilterOptions_settled. rewrite Hfind. split.
  - done.
  - intros result. by rewrite buildOptions_spec.
Qed.

Lemma fetchFilterOptions_settled_spec_witness :
  (∀ error,
     fetchFilterOptions_settled TABS_CONFIG "State" (QueryFailed error) ∅
     = (∅, [ConsoleError (fetchErrorMessage "State") error])) ∧
  (∀ result,
     fetchFilterOptions_settled TABS_CONFIG "State" (QueryOk result) ∅
     = (<["State" := optionsOfRows "users.state" result]> ∅, [])).
Proof.
  apply (fetchFilterOptions_settled_spec TABS_CONFIG "State"
           {| name := "State"; label := "State"; field := "users.state";
              type := select_multi; listens_to := Some ["Country"] |} ∅).
  reflexivity.
Defined.

Example optionsOfRows_skips_null :
  optionsOfRows "users.state"
    [ Some {[ "users.state" := JsString "Texas" ]};
      Some {[ "users.state" := JsNull ]};
      None;
      Some {[ "users.city" := JsString "Austin" ]};
      Some {[ "users.state" := JsNumber "7" ]} ]
  = [ {| value := "Texas"; option_label := "Texas" |};
      {| value := "7"; option_label := "7" |} ].
Proof. vm_compute. reflexivity. Qed.

(** ** Reset and Update *)

(** C7.  The Reset handler leaves the staged map empty and the date
    range at [{type: "last", value: 7, unit: "days"}], whatever they
    were; the Reset button runs exactly that handler. *)
Theorem handleResetClick_resets (cfg : TabsConfig) (fuel : nat) (sdk : bool)
    (st : TabsState) :
  stagedFilters (handleResetClick st) = ∅ ∧
  dateRange (handleResetClick st) = RangeRelative "last" 7 "days" ∧
  dateFilterString (dateRange (handleResetClick st)) = "last 7 days" ∧
  fst <$> tabsStep cfg fuel sdk st ResetClicked = Some (handleResetClick st).
Proof. repeat split. Qed.

Example formatDate_pads :
  formatDate {| getFullYear := 2024; getMonth := 0; getDate := 5 |} = "2024/01/05".
Proof. vm_compute. reflexivity. Qed.

Example handleUpdateClick_range :
  activeFilters
    (handleUpdateClick TABS_CONFIG
       {| stagedFilters := {[ "Country" := ["USA"] ]};
          activeFilters := ∅; filterOptions := ∅;
          dateRange := RangeFromTo
                         {| getFullYear := 2024; getMonth := 0; getDate := 5 |}
                         {| getFullYear := 2024; getMonth := 11; getDate := 31 |};
          isLoading := false |})
  = {[ "Country" := ["USA"];
       "Created Date" := ["2024/01/05 to 2024/12/31"] ]}.
Proof. vm_compute. reflexivity. Qed.

(** C6, as the specification has it, fails: after mounting and the
    initial option fetches, the continuation of [fetchInitialOptions]
    sets the active map although Update was never clicked. *)
Lemma activeFilters_changed_without_update :
  let evs := [ Mounted;
               FetchSettled "Country" (QueryOk []);
               FetchSettled "State" (QueryOk []);
               FetchSettled "City" (QueryOk []);
               FetchSettled "Category" (QueryOk []);
               FetchSettled "Department" (QueryOk []);
               InitialOptionsFetched ] in
  (UpdateClicked ∉ evs) ∧
  ∃ st acts,
    tabsRun TABS_CONFIG 6 true initialTabs evs = Some (st, acts) ∧
    activeFilters st = {[ "Created Date" := ["last 7 days"] ]} ∧
    activeFilters st ≠ activeFilters initialTabs.
Proof.
  intros evs. split.
  - intros H. subst evs.
    repeat (apply elem_of_cons in H as [H|H]; [discriminate H|]).
    by apply elem_of_nil in H.
  - eexists _, _. split; [vm_compute; reflexivity|]. split; [reflexivity|].
    simpl. intros H.
    apply (f_equal (λ m : gmap string (list string), m !! "Created Date")) in H.
    vm_compute in H. discriminate H.
Qed.

(** C6, amended.  A transition changes the active map only if it is the
    Update handler, which stores the staged map extended with the
    formatted date range, or the continuation of the initial load, which
    stores the single entry of the default date range. *)
Theorem activeFilters_changes_only_on_commit (cfg : TabsConfig) (fuel : nat)
    (sdk : bool) (st st' : TabsState) (ev : TabsEvent) (acts : list Action) :
  tabsStep cfg fuel sdk st ev = Some (st', acts) →
  activeFilters st' ≠ activeFilters st →
  (ev = UpdateClicked ∧
   activeFilters st' =
     <[date_name (date_filter cfg) :=
         if bool_decide (dateFilterString (dateRange st) = "") then []
         else [dateFilterString (dateRange st)]]> (stagedFilters st)) ∨
  (ev = InitialOptionsFetched ∧
   activeFilters st' = {[ date_name (date_filter cfg) := ["last 7 days"] ]}).
Proof.
  intros Hstep Hne. destruct ev; simpl in Hstep.
  - by simplify_eq.
  - destruct (fetchFilterOptions_settled _ _ _ _). by simplify_eq.
  - right. by simplify_eq.
  - destruct (handleFilterChange _ _ _ _ _); simplify_eq/=; done.
  - destruct (handleButtonGroupChange _ _ _ _ _); simplify_eq/=; done.
  - by simplify_eq.
  - left. by simplify_eq.
  - by simplify_eq.
Qed.

Lemma activeFilters_changes_only_on_commit_witness :
  let st := withStaged initialTabs exampleStaged in
  let st' := handleUpdateClick TABS_CONFIG st in
  (UpdateClicked = UpdateClicked ∧
   activeFilters st' =
     <["Created Date" := ["last 7 days"]]> exampleStaged) ∨
  (UpdateClicked = InitialOptionsFetched ∧
   activeFilters st' = {[ "Created Date" := ["last 7 days"] ]}).
Proof.
  intros st st'.
  apply (activeFilters_changes_only_on_commit TABS_CONFIG 6 true st st'
           UpdateClicked []).
  - reflexivity.
  - intros H.
    apply (f_equal (λ m : gmap string (list string), m !! "Created Date")) in H.
    vm_compute in H. discriminate H.
Defined.

(** ** The cascading effect *)

Lemma objSet_elem {V} (k : string) (v : V) (obj : list (string * V))
    (k' : string) (v' : V) :
  (k', v') ∈ objSet k v obj ↔ (k' = k ∧ v' = v) ∨ (k' ≠ k ∧ (k', v') ∈ obj).
Proof.
  unfold objSet. case_bool_decide as Hk.
  - rewrite list_elem_of_fmap. split.
    + intros ([k0 v0] & Heq & Hin). simpl in Heq.
      case_bool_decide as Hk0; simplify_eq; [by left|by right].
    + intros [[-> ->]|[Hne Hin]].
      * apply list_elem_of_fmap in Hk as ([k0 v0] & Hk0 & Hin).
        simpl in Hk0. subst k0. exists (k, v0). simpl.
        by rewrite bool_decide_true.
      * exists (k', v'). simpl. by rewrite bool_decide_false.
  - rewrite elem_of_app, list_elem_of_singleton. split.
    + intros [Hin|Heq].
      * right. split; [|done]. intros ->. apply Hk.
        apply list_elem_of_fmap. by exists (k, v').
      * simplify_eq. by left.
    + intros [[-> ->]|[_ Hin]]; [by right|by left].
  Qed.

Lemma length_pos_nonempty {A} (l : list A) : (0 <? length l) = true ↔ l ≠ [].
Proof. destruct l; simpl; split; try done. Qed.

Section Cascade.
Variable cfg : TabsConfig.
Variable staged : gmap string (list string).

Lemma collectParents_fold (parents : list string)
    (acc : list (string * list string) * bool) :
  (∀ p vs, (p, vs) ∈ acc.1 → staged !! p = Some vs ∧ vs ≠ []) →
  (acc.2 = false → acc.1 = []) →
  let res := foldl (collectStep staged) acc parents in
  (∀ p vs, (p, vs) ∈ res.1 ↔ (p, vs) ∈ acc.1 ∨ selected staged parents p vs) ∧
  (res.2 = false → res.1 = []).
Proof.
  revert acc. induction parents as [|p0 parents IH]; intros acc Hcons Hflag.
  - simpl. split; [|done]. intros p vs. split; [by left|].
    intros [H|[H _]]; [done|by apply elem_of_nil in H].
  - cbn [foldl].
    assert (Hacc' : (∀ p vs, (p, vs) ∈ (collectStep staged acc p0).1 →
                             staged !! p = Some vs ∧ vs ≠ []) ∧
                    ((collectStep staged acc p0).2 = false → (collectStep staged acc p0).1 = []) ∧
                    ∀ p vs, (p, vs) ∈ (collectStep staged acc p0).1 ↔
                            (p, vs) ∈ acc.1 ∨
                            (p = p0 ∧ staged !! p = Some vs ∧ vs ≠ [])).
    { unfold collectStep. destruct (staged !! p0) as [vs0|] eqn:E0.
      - destruct (0 <? length vs0) eqn:El.
        + apply length_pos_nonempty in El. simpl. split; [|split].
          * intros p vs [[-> ->]|[_ H]]%objSet_elem; [done|by apply Hcons].
          * done.
          * intros p vs. rewrite objSet_elem. split.
            -- intros [[-> ->]|[Hne H]]; [by right|by left].
            -- intros [H|(-> & Hs & Hne)].
               ++ destruct (decide (p = p0)) as [->|Hne]; [|by right].
                  left. split; [done|]. apply Hcons in H as [H _]. congruence.
               ++ left. split; [done|congruence].
        + split; [done|split; [done|]]. intros p vs. split; [by left|].
          intros [H|(-> & Hs & Hne)]; [done|]. simplify_eq.
          apply length_pos_nonempty in Hne. congruence.
      - split; [done|split; [done|]]. intros p vs. split; [by left|].
        intros [H|(-> & Hs & Hne)]; [done|congruence]. }
    destruct Hacc' as (Hcons' & Hflag' & Hstep).
    destruct (IH _ Hcons' Hflag') as [Hres Hres2].
    split; [|done]. intros p vs. rewrite Hres, Hstep. unfold selected.
    rewrite elem_of_cons. split.
    + intros [[H|(-> & Hs & Hne)]|(Hp & Hs & Hne)].
      * by left.
      * right. split; [by left|done].
      * right. split; [by right|done].
    + intros [H|([->|Hp] & Hs & Hne)].
      * left. by left.
      * left. by right.
      * by right.
Qed.

Lemma collectParents_spec (parents : list string) :
  let res := collectParents staged parents in
  (∀ p vs, (p, vs) ∈ res.1 ↔ selected staged parents p vs) ∧
  (res.2 = false → res.1 = []).
Proof.
  destruct (collectParents_fold parents ([], false)) as [Hres Hflag];
    [by intros p vs H%elem_of_nil|done|].
  unfold collectParents.
  split; [|done]. intros p vs. rewrite (Hres p vs). simpl.
  split; [intros [H|H]; [by apply elem_of_nil in H|done]|by right].
Qed.

Hypothesis Hfields : fieldsDistinct cfg.

Lemma recorded_functional (fld t1 t2 : string) :
  recorded cfg staged fld t1 → recorded cfg staged fld t2 → t1 = t2.
Proof.
  intros (p1 & vs1 & pc1 & Hs1 & _ & Hf1 & Hfld1 & ->)
         (p2 & vs2 & pc2 & Hs2 & _ & Hf2 & Hfld2 & ->).
  apply findFilter_Some in Hf1 as [Hin1 Hn1].
  apply findFilter_Some in Hf2 as [Hin2 Hn2].
  assert (name pc1 = name pc2) by (apply Hfields; congruence).
  congruence.
Qed.

Lemma queryFilters_fold (deps : list (string * list string))
    (acc : gmap string string) (fld text : string) :
  (∀ p vs, (p, vs) ∈ deps → staged !! p = Some vs) →
  (∀ fld text, acc !! fld = Some text → recorded cfg staged fld text) →
  foldl (queryStep cfg) acc deps !! fld = Some text ↔
  acc !! fld = Some text ∨
  ∃ p vs pc, (p, vs) ∈ deps ∧ vs ≠ [] ∧ findFilter cfg p = Some pc ∧
             field pc = fld ∧ text = join "," vs.
Proof.
  revert acc. induction deps as [|[p0 vs0] deps IH]; intros acc Hdeps Hacc.
  - simpl. split; [by left|].
    intros [H|(p & vs & pc & H & _)]; [done|by apply elem_of_nil in H].
  - cbn [foldl].
    assert (Hs0 : staged !! p0 = Some vs0) by (apply Hdeps; by left).
    assert (Hdeps' : ∀ p vs, (p, vs) ∈ deps → staged !! p = Some vs)
      by (intros p vs H; apply Hdeps; by right).
    unfold queryStep at 2. simpl.
    destruct (0 <? length vs0) eqn:El.
    + apply length_pos_nonempty in El.
      destruct (findFilter cfg p0) as [pc0|] eqn:Ef.
      * assert (Hrec0 : recorded cfg staged (field pc0) (join "," vs0))
          by (by exists p0, vs0, pc0).
        rewrite IH; [|done|].
        2:{ intros fld' text' H.
            apply lookup_insert_Some in H as [[<- <-]|[_ H]]; [done|by apply Hacc]. }
        rewrite lookup_insert_Some. split.
        -- intros [[[<- <-]|[Hne H]]|(p & vs & pc & Hin & Hrest)].
           ++ right. exists p0, vs0, pc0. repeat split; [by left|done..].
           ++ by left.
           ++ right. exists p, vs, pc. split; [by right|done].
        -- intros [H|(p & vs & pc & Hin & Hne & Hf & Hfld & Ht)].
           ++ left. destruct (decide (field pc0 = fld)) as [<-|Hne]; [|by right].
              left. split; [done|].
              apply (recorded_functional (field pc0)); [done|by apply Hacc].
           ++ apply elem_of_cons in Hin as [Heq|Hin].
              ** simplify_eq. left. by left.
              ** right. by exists p, vs, pc.
      * rewrite IH; [|done..]. split.
        -- intros [H|(p & vs & pc & Hin & Hrest)]; [by left|].
           right. exists p, vs, pc. split; [by right|done].
        -- intros [H|(p & vs & pc & Hin & Hne & Hf & Hrest)]; [by left|].
           apply elem_of_cons in Hin as [Heq|Hin]; [simplify_eq|].
           right. by exists p, vs, pc.
    + rewrite IH; [|done..]. split.
      * intros [H|(p & vs & pc & Hin & Hrest)]; [by left|].
        right. exists p, vs, pc. split; [by right|done].
      * intros [H|(p & vs & pc & Hin & Hne & Hrest)]; [by left|].
        apply elem_of_cons in Hin as [Heq|Hin].
        -- simplify_eq. apply length_pos_nonempty in Hne. congruence.
        -- right. by exists p, vs, pc.
Qed.

(** The query filters of one cascading fetch. *)
Lemma cascadeFetch_spec (depFilter : FilterConfig) :
  depFilter ∈ filters cfg →
  ∃ filterConfig qf,
    findFilter cfg (name depFilter) = Some filterConfig ∧
    cascadeFetch cfg true staged depFilter =
      [RunInlineQuery (name depFilter)
         {| q_model := model (lookml cfg);
            q_view := explore (lookml cfg);
            q_fields := [field filterConfig];
            q_filters := qf |}] ∧
    (∀ fld text,
       qf !! fld = Some text ↔
       parentConstraint cfg staged (default [] (listens_to depFilter)) fld text) ∧
    ((∀ parent, parent ∈ default [] (listens_to depFilter) →
                default [] (staged !! parent) = []) → qf = ∅).
Proof.
  intros Hin. destruct (findFilter_elem cfg depFilter Hin) as [fc Hfc].
  unfold cascadeFetch.
  pose proof (collectParents_spec (default [] (listens_to depFilter)))
    as [Hobj Hflag]. simpl in Hobj, Hflag.
  destruct (collectParents staged _) as [obj has]. simpl in Hobj, Hflag.
  assert (Hchar : ∀ deps, deps = (if has then Some obj else None) →
            ∀ fld text, queryFilters cfg deps !! fld = Some text ↔
              parentConstraint cfg staged (default [] (listens_to depFilter))
                fld text).
  { intros deps -> fld text. unfold parentConstraint. destruct has.
    - unfold queryFilters.
      rewrite queryFilters_fold; [| |by intros ?? H; rewrite lookup_empty in H].
      2:{ intros p vs H. by apply Hobj in H as (_ & H & _). }
      rewrite lookup_empty. split.
      + intros [H|(p & vs & pc & Hp & Hne & Hrest)]; [done|].
        apply Hobj in Hp as (Hp & Hs & _). by exists p, vs, pc.
      + intros (p & vs & pc & Hp & Hs & Hne & Hrest). right.
        exists p, vs, pc. split; [by apply Hobj|done].
    - simpl. rewrite lookup_empty. split; [done|].
      intros (p & vs & pc & Hp & Hs & Hne & _).
      assert (Hpv : (p, vs) ∈ obj) by (by apply Hobj).
      rewrite Hflag in Hpv; [|done]. by apply elem_of_nil in Hpv. }
  exists fc, (queryFilters cfg (if has then Some obj else None)).
  split; [done|]. split.
  - unfold fetchFilterOptions. destruct has; by rewrite Hfc.
  - split; [by apply Hchar|].
    intros Hnone. apply map_eq. intros fld. rewrite lookup_empty.
    destruct (queryFilters _ _ !! fld) as [text|] eqn:E; [|done].
    apply (Hchar _ eq_refl) in E as (p & vs & pc & Hp & Hs & Hne & _).
    apply Hnone in Hp. rewrite Hs in Hp. simpl in Hp. done.
Qed.

End Cascade.

Lemma Forall2_bind_singleton {A B} (P : A → B → Prop) (f : A → list B)
    (l : list A) :
  (∀ x, x ∈ l → ∃ y, f x = [y] ∧ P x y) → Forall2 P l (l ≫= f).
Proof.
  induction l as [|x l IH]; intros H; [constructor|].
  destruct (H x) as (y & Hy & HP); [by left|].
  cbn. rewrite Hy. simpl. constructor; [done|].
  apply IH. intros x' Hx'. apply H. by right.
Qed.

Lemma TABS_CONFIG_fieldsDistinct : fieldsDistinct TABS_CONFIG.
Proof.
  intros f g Hf Hg. simpl in Hf, Hg.
  repeat (apply elem_of_cons in Hf as [->|Hf]);
    try (by apply elem_of_nil in Hf);
    repeat (apply elem_of_cons in Hg as [->|Hg]);
    try (by apply elem_of_nil in Hg); simpl; intros H; done.
Qed.

(** C4.  With the SDK at hand, the cascading effect sends one query per
    filter that has a non-empty listens_to list; its query filters hold
    exactly, for each listens_to parent with a non-empty staged
    selection, that parent's field with the staged values joined by
    commas, and are empty when no parent has a staged value.  Every
    transition that changes the staged map performs exactly these
    queries.  With Country staged as [["USA"]], the State query carries
    [users.country = "USA"]. *)
Theorem cascadeEffect_scoped (cfg : TabsConfig) (fuel : nat)
    (staged : gmap string (list string)) :
  fieldsDistinct cfg →
  Forall2 (scopedFetch cfg staged)
    (filter (λ f, Is_true (hasParents f)) (filters cfg))
    (cascadeEffect cfg true staged) ∧
  (∀ st ev st' acts,
     tabsStep cfg fuel true st ev = Some (st', acts) →
     stagedFilters st' ≠ stagedFilters st →
     acts = cascadeEffect cfg true (stagedFilters st')) ∧
  (staged !! "Country" = Some ["USA"] →
   ∃ cityQuery,
     cascadeEffect TABS_CONFIG true staged =
       [ RunInlineQuery "State"
           {| q_model := "ecomm"; q_view := "order_items";
              q_fields := ["users.state"];
              q_filters := {[ "users.country" := "USA" ]} |};
         RunInlineQuery "City" cityQuery ]).
Proof.
  intros Hfields. split; [|split].
  - unfold cascadeEffect. apply Forall2_bind_singleton.
    intros depFilter [_ Hin]%list_elem_of_filter.
    destruct (cascadeFetch_spec cfg staged Hfields depFilter Hin)
      as (fc & qf & Hfc & Hfetch & Hqf & Hempty).
    eexists. split; [exact Hfetch|]. by exists fc, qf.
  - intros st ev st' acts Hstep Hne. destruct ev; simpl in Hstep.
    + by simplify_eq.
    + destruct (fetchFilterOptions_settled _ _ _ _). by simplify_eq.
    + by simplify_eq.
    + destruct (handleFilterChange _ _ _ _ _); simplify_eq/=; done.
    + destruct (handleButtonGroupChange _ _ _ _ _); simplify_eq/=; done.
    + by simplify_eq.
    + by simplify_eq.
    + by simplify_eq.
  - intros HUSA. unfold cascadeEffect.
    change (filter _ (filters TABS_CONFIG))
      with [ {| name := "State"; label := "State"; field := "users.state";
                type := select_multi; listens_to := Some ["Country"] |};
             {| name := "City"; label := "City"; field := "users.city";
                type := select_multi;
                listens_to := Some ["Country"; "State"] |} ].
    cbn [mbind list_bind app]. unfold cascadeFetch, collectParents.
    cbn [listens_to default from_option Datatypes.id foldl name].
    unfold collectStep. rewrite HUSA. cbn [length Nat.ltb Nat.leb fst snd].
    destruct (staged !! "State") as [[|s vs]|]; cbn [length Nat.ltb Nat.leb];
      eexists; reflexivity.
Qed.

Lemma cascadeEffect_scoped_witness :
  Forall2 (scopedFetch TABS_CONFIG {[ "Country" := ["USA"] ]})
    (filter (λ f, Is_true (hasParents f)) (filters TABS_CONFIG))
    (cascadeEffect TABS_CONFIG true {[ "Country" := ["USA"] ]}) ∧
  (∀ st ev st' acts,
     tabsStep TABS_CONFIG 6 true st ev = Some (st', acts) →
     stagedFilters st' ≠ stagedFilters st →
     acts = cascadeEffect TABS_CONFIG true (stagedFilters st')) ∧
  (({[ "Country" := ["USA"] ]} : gmap string (list string)) !! "Country"
     = Some ["USA"] →
   ∃ cityQuery,
     cascadeEffect TABS_CONFIG true {[ "Country" := ["USA"] ]} =
       [ RunInlineQuery "State"
           {| q_model := "ecomm"; q_view := "order_items";
              q_fields := ["users.state"];
              q_filters := {[ "users.country" := "USA" ]} |};
         RunInlineQuery "City" cityQuery ]).
Proof.
  exact (cascadeEffect_scoped TABS_CONFIG 6 {[ "Country" := ["USA"] ]}
           TABS_CONFIG_fieldsDistinct).
Defined.

Example cascadeEffect_Country_State :
  cascadeEffect TABS_CONFIG true {[ "Country" := ["USA"]; "State" := ["Texas"; "Ohio"] ]} =
    [ RunInlineQuery "State"
        {| q_model := "ecomm"; q_view := "order_items";
           q_fields := ["users.state"];
           q_filters := {[ "users.country" := "USA" ]} |};
      RunInlineQuery "City"
        {| q_model := "ecomm"; q_view := "order_items";
           q_fields := ["users.city"];
           q_filters := {[ "users.country" := "USA";
                           "users.state" := "Texas,Ohio" ]} |} ].
Proof. vm_compute. reflexivity. Qed.

Example cascadeEffect_unscoped :
  cascadeEffect TABS_CONFIG true ∅ =
    [ RunInlineQuery "State"
        {| q_model := "ecomm"; q_view := "order_items";
           q_fields := ["users.state"]; q_filters := ∅ |};
      RunInlineQuery "City"
        {| q_model := "ecomm"; q_view := "order_items";
           q_fields := ["users.city"]; q_filters := ∅ |} ].
Proof. vm_compute. reflexivity. Qed.

(** ** The dashboard embedder *)

Module DashboardsFacts.
Import Dashboards.

#[local] Arguments commit : simpl never.

Section Tab.
Variable props0 : EmbeddedDashboardProps.
Variable sdk0 : option ExtensionSDK.

Lemma filtersEffect_no_connect (d : option LookerDashboard)
    (p : EmbeddedDashboardProps) :
  connects (filtersEffect d p) = [].
Proof. by destruct d. Qed.

Lemma commit_settled (st : Embedded) (d : option LookerDashboard)
    (p : EmbeddedDashboardProps) :
  settled props0 sdk0 st → id p = id props0 →
  settled props0 sdk0 (commit (Some st) d p sdk0).1 ∧
  connects (commit (Some st) d p sdk0).2 = [].
Proof.
  intros (Href & Hid & Hsdk & Heff) Hp. unfold commit. simpl.
  assert (refDeps st = refDepsOf p sdk0) as Hsame.
  { rewrite Href. unfold refDepsOf. by rewrite Hp. }
  rewrite bool_decide_true; [|done]. simpl. split.
  - repeat split; [|done]. unfold refDepsOf. by rewrite Hp.
  - case_bool_decide; [done|]. apply filtersEffect_no_connect.
Qed.

Lemma step_settled (st : Embedded) (ev : Event) :
  settled props0 sdk0 st → sameTab props0 sdk0 ev →
  ∃ st', (step (Some st) ev).1 = Some st' ∧ settled props0 sdk0 st' ∧
         connects (step (Some st) ev).2 = [].
Proof.
  intros Hst Hev.
  destruct ev as [p sdk|d|error]; cbn [step mbind option_bind].
  - destruct Hev as [Hp ->].
    destruct (commit_settled st (dashboard st) p Hst Hp) as [H1 H2].
    destruct (commit _ _ _ _) as [st' acts]. by exists st'.
  - pose proof Hst as (_ & Hid & Hsdk & _). rewrite Hsdk.
    destruct (commit_settled st (Some d) (props st) Hst Hid) as [H1 H2].
    destruct (commit _ _ _ _) as [st' acts]. by exists st'.
  - by exists st.
Qed.

Lemma run_settled (evs : list Event) (st : Embedded) :
  settled props0 sdk0 st → Forall (sameTab props0 sdk0) evs →
  ∃ st', (run (Some st) evs).1 = Some st' ∧ settled props0 sdk0 st' ∧
         connects (run (Some st) evs).2 = [].
Proof.
  revert st. induction evs as [|ev evs IH]; intros st Hst Hevs.
  - by exists st.
  - apply Forall_cons in Hevs as [Hev Hevs]. cbn [run].
    destruct (step_settled st ev Hst Hev) as (st1 & Hst1 & Hset1 & Hc1).
    destruct (step (Some st) ev) as [o1 acts1]. simpl in Hst1, Hc1. subst o1.
    destruct (IH st1 Hset1 Hevs) as (st2 & Hst2 & Hset2 & Hc2).
    destruct (run (Some st1) evs) as [o2 acts2]. simpl in Hst2, Hc2. subst o2.
    exists st2. simpl. split; [done|]. split; [done|].
    unfold connects in *. by rewrite filter_app, Hc1, Hc2.
Qed.

Lemma step_expected (st : Embedded) (ev : Event) :
  settled props0 sdk0 st → sameTab props0 sdk0 ev →
  ∃ st1,
    step (Some st) ev
      = (Some st1, expectedStep (dashboard st) (filters (props st)) ev) ∧
    settled props0 sdk0 st1 ∧
    dashboard st1 = nextHandle (dashboard st) ev ∧
    filters (props st1) = nextFilters (filters (props st)) ev.
Proof.
  intros Hst Hev. pose proof Hst as (Href & Hid & Hsdk & Heff).
  destruct ev as [p sdk|d|error]; cbn [step mbind option_bind].
  - destruct Hev as [Hp ->]. unfold commit. cbn [fst snd].
    rewrite bool_decide_true by (rewrite Href; unfold refDepsOf; by rewrite Hp).
    eexists. split; [apply f_equal2; [reflexivity|]|].
    + simpl. rewrite Heff. unfold effectDepsOf.
      destruct (dashboard st) as [d|]; simpl.
      * do 2 case_bool_decide; simplify_eq; try done. congruence.
      * by case_bool_decide.
    + split; [|done]. repeat split; simpl; [|done].
      unfold refDepsOf. by rewrite Hp.
  - unfold commit. cbn [fst snd].
    rewrite bool_decide_true
      by (rewrite Href; unfold refDepsOf; by rewrite Hid, Hsdk).
    eexists. split; [apply f_equal2; [reflexivity|]|].
    + simpl. rewrite Heff. unfold effectDepsOf.
      do 2 case_bool_decide; simplify_eq; try done. congruence.
    + split; [|done]. repeat split; simpl; [|done|done].
      unfold refDepsOf. by rewrite Hid, Hsdk.
  - exists st. by repeat split.
Qed.

Lemma run_expected (evs : list Event) (st : Embedded) :
  settled props0 sdk0 st → Forall (sameTab props0 sdk0) evs →
  ∃ st',
    run (Some st) evs
      = (Some st', expectedActions (dashboard st) (filters (props st)) evs) ∧
    dashboard st' = foldl nextHandle (dashboard st) evs.
Proof.
  revert st. induction evs as [|ev evs IH]; intros st Hst Hevs.
  - by exists st.
  - apply Forall_cons in Hevs as [Hev Hevs]. cbn [run expectedActions foldl].
    destruct (step_expected st ev Hst Hev) as (st1 & -> & Hst1 & Hd1 & Hf1).
    destruct (IH st1 Hst1 Hevs) as (st2 & -> & Hd2).
    exists st2. rewrite Hd1, Hf1 in *. by split.
Qed.

(** C8.  An instance mounted with a host URL at hand opens its
    connection once, at mount and with the filters of that render.
    Whatever follows among renders with new filters, the connection
    resolving and the connection failing, no further connection is
    opened: after the [init] and the [connect] of the mount the actions
    are, event by event, exactly the expected ones, [updateFilters] then
    [run] on the handle held for each new filter object and for a handle
    that has just resolved, one logged error for each failure; the handle
    held is the one of the latest resolution.  In particular a render with
    a new filter object on an instance that holds a handle calls
    [updateFilters] and then [run] on that handle and nothing else, and a
    failed connection is logged and nothing else is done. *)
Theorem connects_once_updates_in_place (url : string) (evs : list Event) :
  sdk0 ≫= hostUrl = Some url → url ≠ "" →
  Forall (sameTab props0 sdk0) evs →
  ∃ st acts,
    run None (Rendered props0 sdk0 :: evs) = (Some st, acts) ∧
    filter (λ a, Is_true (isConnect a)) acts
      = [Connect (id props0) "Custom" (entries (filters props0))] ∧
    (∀ d props',
       dashboard st = Some d → id props' = id props0 →
       address (filters props') ≠ address (filters (props st)) →
       (step (Some st) (Rendered props' sdk0)).2
         = [UpdateFilters d (entries (filters props')); Run d]) ∧
    (∀ error,
       step (Some st) (ConnectFailed error)
         = (Some st, [ConsoleError "Connection error" error])) ∧
    acts = Init url
           :: Connect (id props0) "Custom" (entries (filters props0))
           :: expectedActions None (filters props0) evs ∧
    dashboard st = foldl nextHandle None evs ∧
    (∀ d, dashboard st ≠ Some d →
          (step (Some st) (Connected d)).2
            = [UpdateFilters d (entries (filters (props st))); Run d]).
Proof.
  intros Hurl Hne Hevs. cbn [run step].
  unfold commit at 1. cbn [mbind option_bind].
  set (st0 := {| dashboard := None; props := props0; extensionSDK := sdk0;
                 effectDeps := effectDepsOf None props0;
                 refDeps := refDepsOf props0 sdk0 |}).
  assert (Hst0 : settled props0 sdk0 st0) by done.
  destruct (run_settled evs st0 Hst0 Hevs) as (st & Hrun & Hset & Hconn).
  destruct (run_expected evs st0 Hst0 Hevs) as (st' & Hexp & Hhandle).
  rewrite Hexp in Hrun, Hconn. rewrite Hexp. simpl in Hrun, Hconn, Hhandle.
  simplify_eq.
  exists st. eexists. split; [reflexivity|].
  split; [|split; [|split; [|split; [|split]]]].
  - unfold embedCtrRef. rewrite Hurl. simpl.
    rewrite bool_decide_false by done. simpl.
    rewrite !filter_cons. simpl.
    unfold connects in Hconn. rewrite Hconn.
    repeat case_decide; simpl in *; done.
  - intros d props' Hd Hid Haddr.
    destruct Hset as (Href & Hid' & Hsdk & Heff).
    simpl. unfold commit. simpl.
    rewrite bool_decide_true.
    2:{ rewrite Href. unfold refDepsOf. by rewrite Hid. }
    rewrite bool_decide_false.
    2:{ rewrite Heff. unfold effectDepsOf. intros H. by simplify_eq. }
    by rewrite Hd.
  - done.
  - unfold embedCtrRef. rewrite Hurl. simpl.
    rewrite bool_decide_false by done. reflexivity.
  - exact Hhandle.
  - intros d Hd.
    destruct (step_expected st (Connected d) Hset I) as (st1 & Heq & _).
    cbn [step] in Heq. rewrite Heq. simpl. by rewrite bool_decide_false.
Qed.

End Tab.

Lemma connects_once_updates_in_place_witness :
  let filters0 := {| address := 0; entries := {[ "Created Date" := "last 7 days" ]} |} in
  let filters1 := {| address := 1;
                     entries := {[ "Created Date" := "last 7 days";
                                   "Country" := "USA" ]} |} in
  let props0 := {| id := "nXJRwDcnj1SY3mz3uJtEJt"; filters := filters0 |} in
  let props1 := {| id := "nXJRwDcnj1SY3mz3uJtEJt"; filters := filters1 |} in
  let sdk0 := Some {| sdk_address := 0; hostUrl := Some "https://looker.example" |} in
  let evs := [Connected 7; Rendered props1 sdk0; ConnectFailed "timeout"] in
  ∃ st acts,
    run None (Rendered props0 sdk0 :: evs) = (Some st, acts) ∧
    filter (λ a, Is_true (isConnect a)) acts
      = [Connect (id props0) "Custom" (entries (filters props0))] ∧
    (∀ d props',
       dashboard st = Some d → id props' = id props0 →
       address (filters props') ≠ address (filters (props st)) →
       (step (Some st) (Rendered props' sdk0)).2
         = [UpdateFilters d (entries (filters props')); Run d]) ∧
    (∀ error,
       step (Some st) (ConnectFailed error)
         = (Some st, [ConsoleError "Connection error" error])) ∧
    acts = [ Init "https://looker.example";
             Connect "nXJRwDcnj1SY3mz3uJtEJt" "Custom" (entries filters0);
             UpdateFilters 7 (entries filters0); Run 7;
             UpdateFilters 7 (entries filters1); Run 7;
             ConsoleError "Connection error" "timeout" ] ∧
    dashboard st = Some 7 ∧
    (∀ d, dashboard st ≠ Some d →
          (step (Some st) (Connected d)).2
            = [UpdateFilters d (entries (filters (props st))); Run d]).
Proof.
  intros filters0 filters1 props0 props1 sdk0 evs.
  apply (connects_once_updates_in_place props0 sdk0 "https://looker.example" evs).
  - reflexivity.
  - discriminate.
  - subst evs. repeat constructor.
Defined.

Example run_trace :
  let filters0 := {| address := 0; entries := {[ "Created Date" := "last 7 days" ]} |} in
  let filters1 := {| address := 1; entries := {[ "Country" := "USA" ]} |} in
  let props0 := {| id := "d1"; filters := filters0 |} in
  let props1 := {| id := "d1"; filters := filters1 |} in
  let sdk0 := Some {| sdk_address := 0; hostUrl := Some "https://looker.example" |} in
  (run None [Rendered props0 sdk0; Rendered props1 sdk0; Connected 7;
             Rendered props0 sdk0]).2
  = [ Init "https://looker.example";
      Connect "d1" "Custom" {[ "Created Date" := "last 7 days" ]};
      UpdateFilters 7 {[ "Country" := "USA" ]}; Run 7;
      UpdateFilters 7 {[ "Created Date" := "last 7 days" ]}; Run 7 ].
Proof. vm_compute. reflexivity. Qed.

End DashboardsFacts.

(** * Further properties of the filter bar *)

(** ** The closure of dependents *)

Lemma getAllDependents_reaches_cycle (cfg : TabsConfig) (fuel : nat)
    (n c : string) :
  dependent cfg c n → dependent cfg c c → getAllDependents cfg fuel n = None.
Proof.
  revert n. induction fuel as [|fuel IH]; intros n Hcn Hcc; [done|].
  rewrite getAllDependents_unfold.
  assert (∃ m, m ∈ directChildren cfg n ∧ getAllDependents cfg fuel m = None)
    as (m & Hm & Hnone).
  { apply dependent_inv in Hcn as [Hcn|(m & Hcm & Hmn)].
    - exists c. split; [by apply elem_of_directChildren|by apply IH].
    - exists m. split; [by apply elem_of_directChildren|by apply IH]. }
  assert (mapM (getAllDependents cfg fuel) (directChildren cfg n) = None) as ->.
  { apply mapM_None_2, Exists_exists. by exists m. }
  done.
Qed.

(** X1.  On an acyclic graph the list [getAllDependents] returns holds
    exactly the direct and transitive dependents of the starting name
    (possibly more than once): nothing else, and never the name itself. *)
Theorem getAllDependents_exact (cfg : TabsConfig) (fuel : nat) (n : string) :
  acyclic cfg → length (filters cfg) < fuel →
  ∃ l, getAllDependents cfg fuel n = Some l ∧
       (∀ d, d ∈ l ↔ dependent cfg d n) ∧
       n ∉ l.
Proof.
  intros Hacyc Hfuel.
  destruct (getAllDependents_total cfg fuel n Hacyc Hfuel) as [l Hl].
  exists l. split; [done|]. split.
  - intros d. split.
    + by eapply getAllDependents_sound.
    + by eapply getAllDependents_complete.
  - by eapply acyclic_not_self.
Qed.

Lemma getAllDependents_exact_witness :
  ∃ l, getAllDependents TABS_CONFIG 6 "State" = Some l ∧
       (∀ d, d ∈ l ↔ dependent TABS_CONFIG d "State") ∧
       "State" ∉ l.
Proof.
  apply (getAllDependents_exact TABS_CONFIG 6 "State" TABS_CONFIG_acyclic).
  simpl; lia.
Defined.

(** X2.  When a filter lies on a listens_to cycle, or has a dependent
    that does, [getAllDependents] exhausts every recursion budget for it;
    [handleButtonGroupChange] then yields no staged map, whatever is
    staged, and neither does [handleFilterChange] whenever a staged value
    is removed. *)
Theorem cycle_exhausts_every_budget (cfg : TabsConfig) (fuel : nat)
    (n c : string) :
  dependent cfg c n → dependent cfg c c →
  getAllDependents cfg fuel n = None ∧
  (∀ v staged, handleButtonGroupChange cfg fuel n v staged = None) ∧
  (∀ newValues staged v0,
     v0 ∈ default [] (staged !! n) → v0 ∉ newValues →
     handleFilterChange cfg fuel n newValues staged = None).
Proof.
  intros Hcn Hcc.
  pose proof (getAllDependents_reaches_cycle cfg fuel n c Hcn Hcc) as Hnone.
  split; [done|]. split.
  - intros v staged. unfold handleButtonGroupChange. by rewrite Hnone.
  - intros newValues staged v0 Hold Hnew.
    unfold handleFilterChange. destruct (every _ _) eqn:E.
    + exfalso. apply Hnew. by eapply every_includes.
    + simpl. by rewrite Hnone.
Qed.

Lemma exampleCycle_dependent : dependent exampleCycle "A" "A".
Proof.
  apply tc_once. eexists _, ["A"]. split; [by left|]. repeat split. by left.
Qed.

Lemma cycle_exhausts_every_budget_witness :
  getAllDependents exampleCycle 100 "A" = None ∧
  (∀ v staged, handleButtonGroupChange exampleCycle 100 "A" v staged = None) ∧
  (∀ newValues staged v0,
     v0 ∈ default [] (staged !! "A") → v0 ∉ newValues →
     handleFilterChange exampleCycle 100 "A" newValues staged = None).
Proof.
  exact (cycle_exhausts_every_budget exampleCycle 100 "A" "A"
           exampleCycle_dependent exampleCycle_dependent).
Defined.

Example handleButtonGroupChange_cycle_first_click :
  handleButtonGroupChange exampleCycle 100 "A" "x" ∅ = None.
Proof. vm_compute. reflexivity. Qed.

(** ** The handlers on the staged map, continued *)

Lemma handleFilterChange_result (cfg : TabsConfig) (fuel : nat)
    (filterName : string) (newValues : list string)
    (prev : gmap string (list string)) :
  acyclic cfg → length (filters cfg) < fuel →
  ∃ deps,
    handleFilterChange cfg fuel filterName newValues prev
      = Some (deleteAll deps (<[filterName := newValues]> prev)) ∧
    filterName ∉ deps.
Proof.
  intros Hacyc Hfuel. unfold handleFilterChange.
  destruct (every _ _); simpl.
  - exists []. split; [done|apply not_elem_of_nil].
  - destruct (getAllDependents_total cfg fuel filterName Hacyc Hfuel) as [deps Hdeps].
    rewrite Hdeps. simpl. exists deps. split; [done|].
    by eapply acyclic_not_self.
Qed.

Lemma handleButtonGroupChange_result (cfg : TabsConfig) (fuel : nat)
    (filterName value : string) (staged : gmap string (list string)) :
  acyclic cfg → length (filters cfg) < fuel →
  ∃ deps,
    getAllDependents cfg fuel filterName = Some deps ∧
    handleButtonGroupChange cfg fuel filterName value staged
      = Some (deleteAll deps (<[filterName := [value]]> staged)) ∧
    filterName ∉ deps.
Proof.
  intros Hacyc Hfuel. unfold handleButtonGroupChange.
  destruct (getAllDependents_total cfg fuel filterName Hacyc Hfuel) as [deps Hdeps].
  rewrite Hdeps. simpl. exists deps. split; [done|]. split; [done|].
  by eapply acyclic_not_self.
Qed.

(** X3.  [handleFilterChange] is idempotent: handing it the same
    selection a second time returns the staged map the first call
    returned. *)
Theorem handleFilterChange_idempotent (cfg : TabsConfig) (fuel : nat)
    (filterName : string) (newValues : list string)
    (prev : gmap string (list string)) :
  acyclic cfg → length (filters cfg) < fuel →
  ∃ staged,
    handleFilterChange cfg fuel filterName newValues prev = Some staged ∧
    handleFilterChange cfg fuel filterName newValues staged = Some staged.
Proof.
  intros Hacyc Hfuel.
  destruct (handleFilterChange_result cfg fuel filterName newValues prev
              Hacyc Hfuel) as (deps & Hres & Hself).
  eexists. split; [exact Hres|].
  assert (Hname : deleteAll deps (<[filterName := newValues]> prev) !! filterName
                  = Some newValues).
  { rewrite lookup_deleteAll. case_decide; [done|]. apply lookup_insert_eq. }
  unfold handleFilterChange at 1. rewrite Hname. simpl.
  replace (every _ _) with true
    by (symmetry; by apply every_includes).
  simpl. f_equal. by apply insert_id.
Qed.

Lemma handleFilterChange_idempotent_witness :
  ∃ staged,
    handleFilterChange TABS_CONFIG 6 "Country" ["Canada"] exampleStaged
      = Some staged ∧
    handleFilterChange TABS_CONFIG 6 "Country" ["Canada"] staged = Some staged.
Proof.
  apply (handleFilterChange_idempotent TABS_CONFIG 6 "Country" ["Canada"]
           exampleStaged TABS_CONFIG_acyclic).
  simpl; lia.
Defined.

(** X4.  Neither handler alters or adds an entry of another filter: an
    entry found afterwards under a key other than the changed filter was
    there before with the same values. *)
Theorem handlers_only_delete (cfg : TabsConfig) (fuel : nat)
    (filterName value : string) (newValues : list string)
    (staged : gmap string (list string)) :
  acyclic cfg → length (filters cfg) < fuel →
  (∃ staged',
     handleFilterChange cfg fuel filterName newValues staged = Some staged' ∧
     ∀ k vs, k ≠ filterName → staged' !! k = Some vs → staged !! k = Some vs) ∧
  (∃ staged',
     handleButtonGroupChange cfg fuel filterName value staged = Some staged' ∧
     ∀ k vs, k ≠ filterName → staged' !! k = Some vs → staged !! k = Some vs).
Proof.
  intros Hacyc Hfuel. split.
  - destruct (handleFilterChange_result cfg fuel filterName newValues staged
                Hacyc Hfuel) as (deps & Hres & _).
    eexists. split; [exact Hres|]. intros k vs Hne.
    rewrite lookup_deleteAll. case_decide; [done|]. by rewrite lookup_insert_ne.
  - destruct (handleButtonGroupChange_result cfg fuel filterName value staged
                Hacyc Hfuel) as (deps & _ & Hres & _).
    eexists. split; [exact Hres|]. intros k vs Hne.
    rewrite lookup_deleteAll. case_decide; [done|]. by rewrite lookup_insert_ne.
Qed.

Lemma handlers_only_delete_witness :
  (∃ staged',
     handleFilterChange TABS_CONFIG 6 "Country" ["Canada"] exampleStaged
       = Some staged' ∧
     ∀ k vs, k ≠ "Country" → staged' !! k = Some vs →
             exampleStaged !! k = Some vs) ∧
  (∃ staged',
     handleButtonGroupChange TABS_CONFIG 6 "Country" "Canada" exampleStaged
       = Some staged' ∧
     ∀ k vs, k ≠ "Country" → staged' !! k = Some vs →
             exampleStaged !! k = Some vs).
Proof.
  apply (handlers_only_delete TABS_CONFIG 6 "Country" "Canada" ["Canada"]
           exampleStaged TABS_CONFIG_acyclic).
  simpl; lia.
Defined.

(** X5.  When the new value of a button group replaces a different
    staged value, [handleButtonGroupChange] and [handleFilterChange] with
    the one-element selection do the same thing, budget and graph
    notwithstanding. *)
Theorem handleButtonGroupChange_as_filter_change (cfg : TabsConfig)
    (fuel : nat) (filterName value old : string)
    (staged : gmap string (list string)) :
  old ∈ default [] (staged !! filterName) → old ≠ value →
  handleButtonGroupChange cfg fuel filterName value staged
  = handleFilterChange cfg fuel filterName [value] staged.
Proof.
  intros Hold Hne. unfold handleButtonGroupChange, handleFilterChange.
  destruct (every _ _) eqn:E; [|done].
  exfalso. apply Hne.
  apply (proj1 (every_includes _ _) E) in Hold.
  by apply list_elem_of_singleton in Hold.
Qed.

Lemma handleButtonGroupChange_as_filter_change_witness :
  handleButtonGroupChange TABS_CONFIG 6 "Department" "Men" exampleStaged
  = handleFilterChange TABS_CONFIG 6 "Department" ["Men"] exampleStaged.
Proof.
  apply (handleButtonGroupChange_as_filter_change TABS_CONFIG 6
           "Department" "Men" "Women" exampleStaged).
  - replace (default [] (exampleStaged !! "Department")) with ["Women"]
      by (vm_compute; reflexivity).
    by left.
  - discriminate.
Defined.

Lemma filter_none {A} (P : A → Prop) `{∀ x, Decision (P x)} (l : list A) :
  (∀ x, x ∈ l → ¬ P x) → filter P l = [].
Proof.
  induction l as [|x l IH]; intros Hnone; [done|].
  rewrite filter_cons. rewrite decide_False by (apply Hnone; by left).
  apply IH. intros y Hy. apply Hnone. by right.
Qed.

(** X6.  For a filter no configured filter listens to, both handlers
    only store the new selection, whatever was staged and whatever is
    removed, as soon as the budget allows one call. *)
Theorem handlers_on_leaf_filter (cfg : TabsConfig) (fuel : nat)
    (filterName value : string) (newValues : list string)
    (staged : gmap string (list string)) :
  (∀ f, f ∈ filters cfg → listensTo filterName f = false) →
  handleFilterChange cfg (S fuel) filterName newValues staged
    = Some (<[filterName := newValues]> staged) ∧
  handleButtonGroupChange cfg (S fuel) filterName value staged
    = Some (<[filterName := [value]]> staged).
Proof.
  intros Hleaf.
  assert (Hnil : directChildren cfg filterName = []).
  { unfold directChildren.
    rewrite filter_none; [done|].
    intros f Hf. rewrite (Hleaf f Hf). intros []. }
  assert (Hdeps : getAllDependents cfg (S fuel) filterName = Some []).
  { rewrite getAllDependents_unfold, Hnil. done. }
  unfold handleFilterChange, handleButtonGroupChange. rewrite Hdeps.
  split; [|done]. by destruct (every _ _).
Qed.

Lemma handlers_on_leaf_filter_witness :
  handleFilterChange TABS_CONFIG 1 "Category" [] exampleStaged
    = Some (<["Category" := []]> exampleStaged) ∧
  handleButtonGroupChange TABS_CONFIG 1 "Category" "Jeans" exampleStaged
    = Some (<["Category" := ["Jeans"]]> exampleStaged).
Proof.
  apply (handlers_on_leaf_filter TABS_CONFIG 0 "Category" "Jeans" [] exampleStaged).
  intros f Hf. simpl in Hf.
  repeat (apply elem_of_cons in Hf as [->|Hf]); try (by apply elem_of_nil in Hf);
    reflexivity.
Defined.

(** X7.  What the widgets show after a change: the button group shows
    the value just chosen, a multi-select shows the selection just made,
    and every dependent of a button group shows no values. *)
Theorem widgets_show_change (cfg : TabsConfig) (fuel : nat)
    (filterName value : string) (newValues : list string)
    (staged : gmap string (list string)) :
  acyclic cfg → length (filters cfg) < fuel →
  (∃ staged',
     handleButtonGroupChange cfg fuel filterName value staged = Some staged' ∧
     buttonGroupValue staged' filterName = Some value ∧
     ∀ d, dependent cfg d filterName → selectMultiValues staged' d = []) ∧
  (∃ staged',
     handleFilterChange cfg fuel filterName newValues staged = Some staged' ∧
     selectMultiValues staged' filterName = newValues).
Proof.
  intros Hacyc Hfuel. split.
  - destruct (handleButtonGroupChange_result cfg fuel filterName value staged
                Hacyc Hfuel) as (deps & Hdeps & Hres & _).
    destruct (cleared_lookup cfg fuel filterName [value] staged deps Hacyc Hdeps)
      as (Hself & Hdep & _).
    eexists. split; [exact Hres|]. split.
    + unfold buttonGroupValue. by rewrite Hself.
    + intros d Hd. unfold selectMultiValues. by rewrite (Hdep d Hd).
  - destruct (handleFilterChange_result cfg fuel filterName newValues staged
                Hacyc Hfuel) as (deps & Hres & Hself).
    eexists. split; [exact Hres|].
    unfold selectMultiValues. rewrite lookup_deleteAll.
    case_decide; [done|]. by rewrite lookup_insert_eq.
Qed.

Lemma widgets_show_change_witness :
  (∃ staged',
     handleButtonGroupChange TABS_CONFIG 6 "Department" "Men" exampleStaged
       = Some staged' ∧
     buttonGroupValue staged' "Department" = Some "Men" ∧
     ∀ d, dependent TABS_CONFIG d "Department" → selectMultiValues staged' d = []) ∧
  (∃ staged',
     handleFilterChange TABS_CONFIG 6 "Department" ["Men"; "Kids"] exampleStaged
       = Some staged' ∧
     selectMultiValues staged' "Department" = ["Men"; "Kids"]).
Proof.
  apply (widgets_show_change TABS_CONFIG 6 "Department" "Men" ["Men"; "Kids"]
           exampleStaged TABS_CONFIG_acyclic).
  simpl; lia.
Defined.

(** ** Fetching options, continued *)

Lemma fetchFilterOptions_no_sdk (cfg : TabsConfig) (filterName : string)
    (dependencies : option (list (string * list string))) :
  fetchFilterOptions cfg false filterName dependencies = [].
Proof. unfold fetchFilterOptions. by destruct (findFilter _ _). Qed.

Lemma bind_nil_all {A B} (f : A → list B) (l : list A) :
  (∀ x, x ∈ l → f x = []) → l ≫= f = [].
Proof.
  induction l as [|x l IH]; intros H; [done|].
  cbn. rewrite (H x) by (by left). simpl. apply IH. intros y Hy. apply H. by right.
Qed.

Lemma bind_ext_in {A B} (f g : A → list B) (l : list A) :
  (∀ x, x ∈ l → f x = g x) → l ≫= f = l ≫= g.
Proof.
  induction l as [|x l IH]; intros H; [done|].
  cbn. rewrite (H x) by (by left). f_equal. apply IH. intros y Hy. apply H. by right.
Qed.

Lemma foldl_ext_in {A B} (f g : B → A → B) (l : list A) (b : B) :
  (∀ acc x, x ∈ l → f acc x = g acc x) → foldl f b l = foldl g b l.
Proof.
  revert b. induction l as [|x l IH]; intros b H; [done|].
  cbn [foldl]. rewrite (H b x) by (by left). apply IH.
  intros acc y Hy. apply H. by right.
Qed.

Lemma cascadeEffect_no_sdk (cfg : TabsConfig)
    (staged : gmap string (list string)) :
  cascadeEffect cfg false staged = [].
Proof.
  unfold cascadeEffect. apply bind_nil_all. intros f _. unfold cascadeFetch.
  destruct (collectParents _ _) as [obj []]; apply fetchFilterOptions_no_sdk.
Qed.

Lemma tabsStep_no_sdk (cfg : TabsConfig) (fuel : nat) (st st' : TabsState)
    (ev : TabsEvent) (acts : list Action) :
  tabsStep cfg fuel false st ev = Some (st', acts) →
  Forall (λ a, isQuery a = false) acts.
Proof.
  intros Hstep. destruct ev; simpl in Hstep.
  - rewrite cascadeEffect_no_sdk in Hstep. by simplify_eq.
  - unfold fetchFilterOptions_settled in Hstep.
    destruct (findFilter _ _) as [fc|]; [|by simplify_eq].
    destruct response as [result|error]; [|simplify_eq; by repeat constructor].
    destruct (buildOptions _ _); simplify_eq; by repeat constructor.
  - by simplify_eq.
  - destruct (handleFilterChange _ _ _ _ _); simplify_eq/=.
    rewrite cascadeEffect_no_sdk. constructor.
  - destruct (handleButtonGroupChange _ _ _ _ _); simplify_eq/=.
    rewrite cascadeEffect_no_sdk. constructor.
  - by simplify_eq.
  - by simplify_eq.
  - rewrite cascadeEffect_no_sdk in Hstep. by simplify_eq.
Qed.

(** X8.  Without an SDK the filter bar never sends a query: over any
    sequence of mounts, fetch continuations, filter changes, updates and
    resets, none of the actions performed is a query. *)
Theorem no_sdk_no_query (cfg : TabsConfig) (fuel : nat) (st st' : TabsState)
    (evs : list TabsEvent) (acts : list Action) :
  tabsRun cfg fuel false st evs = Some (st', acts) →
  Forall (λ a, isQuery a = false) acts.
Proof.
  revert st st' acts. induction evs as [|ev evs IH]; intros st st' acts Hrun.
  - simpl in Hrun. simplify_eq. constructor.
  - cbn [tabsRun] in Hrun.
    destruct (tabsStep cfg fuel false st ev) as [[st1 acts1]|] eqn:E1; [|done].
    simpl in Hrun.
    destruct (tabsRun cfg fuel false st1 evs) as [[st2 acts2]|] eqn:E2; [|done].
    simpl in Hrun. simplify_eq. apply Forall_app. split.
    + by eapply tabsStep_no_sdk.
    + by eapply IH.
Qed.

Lemma no_sdk_no_query_witness :
  ∃ st' acts,
    tabsRun TABS_CONFIG 6 false initialTabs
      [Mounted; ButtonGroupChanged "Department" "Men"; ResetClicked;
       UpdateClicked] = Some (st', acts) ∧
    Forall (λ a, isQuery a = false) acts.
Proof.
  destruct (tabsRun TABS_CONFIG 6 false initialTabs
              [Mounted; ButtonGroupChanged "Department" "Men"; ResetClicked;
               UpdateClicked]) as [[st' acts]|] eqn:E.
  - exists st', acts. split; [reflexivity|].
    exact (no_sdk_no_query TABS_CONFIG 6 initialTabs st' _ acts E).
  - vm_compute in E. discriminate E.
Defined.

Lemma queryFilters_fold_sources (cfg : TabsConfig)
    (deps : list (string * list string)) (acc : gmap string string)
    (fld text : string) :
  foldl (queryStep cfg) acc deps !! fld = Some text →
  acc !! fld = Some text ∨
  ∃ p vs pc, (p, vs) ∈ deps ∧ vs ≠ [] ∧ findFilter cfg p = Some pc ∧
             field pc = fld ∧ text = join "," vs.
Proof.
  revert acc. induction deps as [|[p0 vs0] deps IH]; intros acc H; [by left|].
  cbn [foldl] in H. apply IH in H as [H|(p & vs & pc & Hin & Hrest)].
  - unfold queryStep in H. simpl in H.
    destruct (0 <? length vs0) eqn:El; [|by left].
    apply length_pos_nonempty in El.
    destruct (findFilter cfg p0) as [pc0|] eqn:Ef; [|by left].
    apply lookup_insert_Some in H as [[<- <-]|[_ H]]; [|by left].
    right. exists p0, vs0, pc0. split; [by left|done].
  - right. exists p, vs, pc. split; [by right|done].
Qed.

(** X9.  Every constraint [fetchFilterOptions] puts on a query comes from
    an entry of [dependencies] that has at least one value and names a
    configured filter: the key is that filter's field, the text its
    values joined by commas.  Entries with no values, or for names that
    are not configured, add nothing. *)
Theorem queryFilters_sources (cfg : TabsConfig)
    (deps : list (string * list string)) (fld text : string) :
  queryFilters cfg (Some deps) !! fld = Some text →
  ∃ p vs pc, (p, vs) ∈ deps ∧ vs ≠ [] ∧ findFilter cfg p = Some pc ∧
             field pc = fld ∧ text = join "," vs.
Proof.
  unfold queryFilters. intros H.
  apply queryFilters_fold_sources in H as [H|H]; [|done].
  by rewrite lookup_empty in H.
Qed.

Lemma queryFilters_sources_witness :
  ∃ p vs pc,
    (p, vs) ∈ [("Country", ["USA"; "Canada"]); ("State", []); ("Region", ["West"])] ∧
    vs ≠ [] ∧ findFilter TABS_CONFIG p = Some pc ∧
    field pc = "users.country" ∧ "USA,Canada" = join "," vs.
Proof.
  apply (queryFilters_sources TABS_CONFIG
           [("Country", ["USA"; "Canada"]); ("State", []); ("Region", ["West"])]
           "users.country" "USA,Canada").
  vm_compute. reflexivity.
Defined.

Example queryFilters_skips :
  queryFilters TABS_CONFIG
    (Some [("Country", ["USA"; "Canada"]); ("State", []); ("Region", ["West"])])
  = {[ "users.country" := "USA,Canada" ]}.
Proof. vm_compute. reflexivity. Qed.

Lemma collectStep_default (s1 s2 : gmap string (list string))
    (acc : list (string * list string) * bool) (p : string) :
  default [] (s1 !! p) = default [] (s2 !! p) →
  collectStep s1 acc p = collectStep s2 acc p.
Proof.
  unfold collectStep. intros H.
  destruct (s1 !! p) as [[|x1 l1]|], (s2 !! p) as [[|x2 l2]|];
    simpl in *; simplify_eq; done.
Qed.

(** X10.  The queries of the cascading effect depend on the staged map
    only through the selections of the listens_to parents, an empty
    selection counting as none: staged maps that agree there give the
    same queries. *)
Theorem cascadeEffect_depends_on_parents (cfg : TabsConfig) (sdk : bool)
    (s1 s2 : gmap string (list string)) :
  (∀ f p, f ∈ filters cfg → p ∈ default [] (listens_to f) →
          default [] (s1 !! p) = default [] (s2 !! p)) →
  cascadeEffect cfg sdk s1 = cascadeEffect cfg sdk s2.
Proof.
  intros Hagree. unfold cascadeEffect. apply bind_ext_in.
  intros f [_ Hf]%list_elem_of_filter. unfold cascadeFetch, collectParents.
  rewrite (foldl_ext_in (collectStep s1) (collectStep s2)); [done|].
  intros acc p Hp. apply collectStep_default. by eapply Hagree.
Qed.

Lemma cascadeEffect_depends_on_parents_witness :
  cascadeEffect TABS_CONFIG true exampleStaged
  = cascadeEffect TABS_CONFIG true
      (<["Category" := ["Shoes"]]> (<["City" := []]> exampleStaged)).
Proof.
  apply (cascadeEffect_depends_on_parents TABS_CONFIG true).
  intros f p Hf Hp. simpl in Hf.
  repeat (apply elem_of_cons in Hf as [->|Hf]); try (by apply elem_of_nil in Hf);
    simpl in Hp;
    repeat (apply elem_of_cons in Hp as [->|Hp]); try (by apply elem_of_nil in Hp);
    vm_compute; reflexivity.
Defined.

(** X11.  On mount with an SDK the component sends one unscoped query
    per configured filter, in configuration order and for the field of
    the first filter of that name, followed by the queries of the
    cascading effect; it raises the loading flag and changes nothing
    else. *)
Theorem mount_fetches_all (cfg : TabsConfig) (fuel : nat) (st : TabsState) :
  ∃ st' initial,
    tabsStep cfg fuel true st Mounted
      = Some (st', initial ++ cascadeEffect cfg true (stagedFilters st)) ∧
    Forall2
      (λ f act, ∃ fc, findFilter cfg (name f) = Some fc ∧
                      act = RunInlineQuery (name f)
                              {| q_model := model (lookml cfg);
                                 q_view := explore (lookml cfg);
                                 q_fields := [field fc];
                                 q_filters := ∅ |})
      (filters cfg) initial ∧
    isLoading st' = true ∧
    stagedFilters st' = stagedFilters st ∧
    activeFilters st' = activeFilters st ∧
    filterOptions st' = filterOptions st ∧
    dateRange st' = dateRange st.
Proof.
  eexists _, _. split; [reflexivity|]. split; [|done].
  apply Forall2_bind_singleton. intros f Hf.
  destruct (findFilter_elem cfg f Hf) as [fc Hfc].
  eexists. split.
  - unfold fetchFilterOptions. rewrite Hfc. reflexivity.
  - by exists fc.
Qed.

(** X12.  A successful response for a filter leaves no trace of whatever
    settled for that filter before it, success or failure: the options
    are those of the response that settles last, even if its query was
    sent first. *)
Theorem later_response_overwrites (cfg : TabsConfig) (filterName : string)
    (earlier : QueryResponse) (result : list Row)
    (prev : gmap string (list FilterOption)) :
  (fetchFilterOptions_settled cfg filterName (QueryOk result)
     (fetchFilterOptions_settled cfg filterName earlier prev).1).1
  = (fetchFilterOptions_settled cfg filterName (QueryOk result) prev).1.
Proof.
  unfold fetchFilterOptions_settled.
  destruct (findFilter cfg filterName) as [fc|]; [|done].
  rewrite buildOptions_spec.
  destruct earlier as [result0|error]; [|done].
  rewrite buildOptions_spec. simpl. apply insert_insert_eq.
Qed.

(** X13.  Responses for two different filters may settle in either
    order: the options map ends up the same. *)
Theorem responses_commute (cfg : TabsConfig) (name1 name2 : string)
    (r1 r2 : QueryResponse) (prev : gmap string (list FilterOption)) :
  name1 ≠ name2 →
  (fetchFilterOptions_settled cfg name2 r2
     (fetchFilterOptions_settled cfg name1 r1 prev).1).1
  = (fetchFilterOptions_settled cfg name1 r1
       (fetchFilterOptions_settled cfg name2 r2 prev).1).1.
Proof.
  intros Hne. unfold fetchFilterOptions_settled.
  destruct (findFilter cfg name1) as [fc1|], (findFilter cfg name2) as [fc2|];
    try done.
  destruct r1 as [res1|e1], r2 as [res2|e2];
    rewrite ?buildOptions_spec; simpl; try done.
  by apply insert_insert_ne.
Qed.

Lemma responses_commute_witness :
  (fetchFilterOptions_settled TABS_CONFIG "City"
     (QueryOk [Some {[ "users.city" := JsString "Austin" ]}])
     (fetchFilterOptions_settled TABS_CONFIG "State" (QueryFailed "timeout") ∅).1).1
  = (fetchFilterOptions_settled TABS_CONFIG "State" (QueryFailed "timeout")
       (fetchFilterOptions_settled TABS_CONFIG "City"
          (QueryOk [Some {[ "users.city" := JsString "Austin" ]}]) ∅).1).1.
Proof.
  apply (responses_commute TABS_CONFIG "State" "City"). discriminate.
Defined.

(** ** Dates, Update and the filters handed to the dashboards *)

Lemma string_length_app (s1 s2 : string) :
  String.length (s1 +:+ s2) = String.length s1 + String.length s2.
Proof. induction s1 as [|c s1 IH]; simpl; [done|by rewrite IH]. Qed.

Lemma string_app_nonempty (s1 s2 : string) : s2 ≠ "" → s1 +:+ s2 ≠ "".
Proof. by destruct s1. Qed.

Lemma string_app_empty_r (s : string) : s +:+ "" = s.
Proof.
  induction s as [|c s IH]; [done|].
  change (String c (s +:+ "") = String c s). by rewrite IH.
Qed.

Lemma concat_empty_cons (x : string) (l : list string) :
  String.concat "" (x :: l) = x +:+ String.concat "" l.
Proof.
  destruct l; [|reflexivity].
  cbn [String.concat]. by rewrite string_app_empty_r.
Qed.

Lemma concat_replicate_length (k : nat) (c : Ascii.ascii) :
  String.length (String.concat "" (replicate k (String c ""))) = k.
Proof.
  induction k as [|k IH]; [done|].
  change (replicate (S k) (String c ""))
    with (String c "" :: replicate k (String c "")).
  rewrite concat_empty_cons, string_length_app, IH. done.
Qed.

(** [padStart] with a one-character pad returns a string of the target
    length, or of the length of its argument if that is longer. *)
Lemma padStart_length (n : nat) (c : Ascii.ascii) (s : string) :
  String.length (padStart n (String c "") s) = n `max` String.length s.
Proof.
  unfold padStart. rewrite string_length_app, concat_replicate_length. lia.
Qed.

Lemma dateFilterString_nonempty (range : DateRange) :
  hasShape range = true → dateFilterString range ≠ "".
Proof.
  destruct range as [from to|t v u| |]; simpl; intros Hshape; try done.
  - by apply string_app_nonempty.
  - by apply string_app_nonempty.
Qed.

Lemma dateFilterString_empty (range : DateRange) :
  hasShape range = false → dateFilterString range = "".
Proof. by destruct range. Qed.

Lemma padStart_twoDigits (n : nat) :
  n < 32 →
  padStart 2 "0" (pretty n) = twoDigits n ∧ String.length (twoDigits n) = 2.
Proof.
  intros Hn. destruct n as [|n]; [split; reflexivity|].
  do 31 (destruct n as [|n]; [split; reflexivity|]). lia.
Qed.

(** X14.  For the readings a [Date] can give (month 0 to 11, day of the
    month below 32) [formatDate] writes, in this order, the year, a
    slash, the month counted from one in two digits, a slash and the day
    in two digits. *)
Theorem formatDate_layout (date : JsDate) :
  getMonth date < 12 → getDate date < 32 →
  formatDate date
  = pretty (getFullYear date) +:+ "/" +:+ twoDigits (getMonth date + 1)
    +:+ "/" +:+ twoDigits (getDate date) ∧
  String.length (twoDigits (getMonth date + 1)) = 2 ∧
  String.length (twoDigits (getDate date)) = 2 ∧
  String.length (formatDate date)
  = String.length (pretty (getFullYear date)) + 6.
Proof.
  intros Hm Hd.
  destruct (padStart_twoDigits (getMonth date + 1)) as [Hmm Hmlen]; [lia|].
  destruct (padStart_twoDigits (getDate date)) as [Hdd Hdlen]; [lia|].
  assert (Heq : formatDate date
                = pretty (getFullYear date) +:+ "/"
                  +:+ twoDigits (getMonth date + 1)
                  +:+ "/" +:+ twoDigits (getDate date)).
  { unfold formatDate. cbv zeta. by rewrite Hmm, Hdd. }
  split; [exact Heq|]. split; [exact Hmlen|]. split; [exact Hdlen|].
  rewrite Heq, !string_length_app, Hmlen, Hdlen. simpl. lia.
Qed.

Lemma formatDate_layout_witness :
  formatDate {| getFullYear := 2024; getMonth := 11; getDate := 9 |}
  = pretty 2024%Z +:+ "/" +:+ twoDigits (11 + 1) +:+ "/" +:+ twoDigits 9 ∧
  String.length (twoDigits (11 + 1)) = 2 ∧
  String.length (twoDigits 9) = 2 ∧
  String.length
    (formatDate {| getFullYear := 2024; getMonth := 11; getDate := 9 |})
  = String.length (pretty 2024%Z) + 6.
Proof.
  apply (formatDate_layout {| getFullYear := 2024; getMonth := 11; getDate := 9 |});
    simpl; lia.
Defined.

Example formatDate_layout_December :
  formatDate {| getFullYear := 2024; getMonth := 11; getDate := 9 |}
  = "2024/12/09".
Proof. vm_compute. reflexivity. Qed.

Lemma handleUpdateClick_lookup (cfg : TabsConfig) (st : TabsState) (k : string) :
  activeFilters (handleUpdateClick cfg st) !! k
  = if decide (k = date_name (date_filter cfg))
    then Some (if hasShape (dateRange st)
               then [dateFilterString (dateRange st)] else [])
    else stagedFilters st !! k.
Proof.
  simpl. case_decide as Hk.
  - subst k. rewrite lookup_insert_eq. f_equal.
    destruct (hasShape (dateRange st)) eqn:Hshape.
    + rewrite bool_decide_false; [done|]. by apply dateFilterString_nonempty.
    + rewrite bool_decide_true; [done|]. by apply dateFilterString_empty.
  - by rewrite lookup_insert_ne.
Qed.

(** X15.  Update stores under the date filter's name, in place of any
    staged entry of that name, the one-element list of the date string
    when the date range has a [from]/[to] or a [type] shape (the string is
    then non-empty), and the empty list when the range is falsy or has
    neither shape; every other active entry is the staged one; the staged
    map, the options, the date range and the loading flag are left
    alone. *)
Theorem handleUpdateClick_commits (cfg : TabsConfig) (st : TabsState) :
  let st' := handleUpdateClick cfg st in
  activeFilters st' !! date_name (date_filter cfg)
    = Some (if hasShape (dateRange st)
            then [dateFilterString (dateRange st)] else []) ∧
  (hasShape (dateRange st) = true → dateFilterString (dateRange st) ≠ "") ∧
  (∀ k, k ≠ date_name (date_filter cfg) →
        activeFilters st' !! k = stagedFilters st !! k) ∧
  stagedFilters st' = stagedFilters st ∧
  filterOptions st' = filterOptions st ∧
  dateRange st' = dateRange st ∧
  isLoading st' = isLoading st.
Proof.
  intros st'. subst st'.
  split; [|split; [apply dateFilterString_nonempty|split; [|done]]].
  - rewrite handleUpdateClick_lookup. by rewrite decide_True.
  - intros k Hk. rewrite handleUpdateClick_lookup. by rewrite decide_False.
Qed.

Example handleUpdateClick_no_range :
  activeFilters
    (handleUpdateClick TABS_CONFIG
       {| stagedFilters := {[ "Country" := ["USA"] ]};
          activeFilters := ∅; filterOptions := ∅;
          dateRange := RangeMissing; isLoading := false |})
  = {[ "Country" := ["USA"]; "Created Date" := [] ]}.
Proof. vm_compute. reflexivity. Qed.

(** X16.  Reset followed by Update gives the dashboards the filter set
    of the initial load: the single entry of the last seven days. *)
Theorem reset_then_update_is_initial (cfg : TabsConfig) (fuel : nat)
    (sdk : bool) (st : TabsState) :
  ∃ st' acts,
    tabsRun cfg fuel sdk st [ResetClicked; UpdateClicked] = Some (st', acts) ∧
    activeFilters st' = {[ date_name (date_filter cfg) := ["last 7 days"] ]} ∧
    (fst <$> tabsStep cfg fuel sdk st InitialOptionsFetched)
      = Some {| stagedFilters := stagedFilters st;
                activeFilters := activeFilters st';
                filterOptions := filterOptions st;
                dateRange := dateRange st;
                isLoading := false |}.
Proof.
  eexists _, _. split; [reflexivity|]. simpl.
  replace (<[date_name (date_filter cfg) := ["last 7 days"]]> ∅)
    with ({[ date_name (date_filter cfg) := ["last 7 days"] ]}
            : gmap string (list string))
    by (symmetry; apply insert_empty).
  done.
Qed.

(** X17.  After Update the dashboards receive, under the date filter's
    name, exactly the date string, and under every other name the staged
    values joined by commas; names with no staged entry are not sent. *)
Theorem dashboardFilters_after_update (cfg : TabsConfig) (st : TabsState) :
  let sent := dashboardFilters (activeFilters (handleUpdateClick cfg st)) in
  sent !! date_name (date_filter cfg) = Some (dateFilterString (dateRange st)) ∧
  ∀ k, k ≠ date_name (date_filter cfg) →
       sent !! k = join "," <$> stagedFilters st !! k.
Proof.
  intros sent. subst sent. unfold dashboardFilters. split.
  - rewrite lookup_fmap, handleUpdateClick_lookup, decide_True by done.
    destruct (hasShape (dateRange st)) eqn:Hshape; simpl; [done|].
    by rewrite dateFilterString_empty.
  - intros k Hk. rewrite lookup_fmap, handleUpdateClick_lookup.
    by rewrite decide_False.
Qed.

(** ** The filter bar as a transition system *)

Lemma tabsRun_invariant (P : TabsState → Prop) (cfg : TabsConfig)
    (fuel : nat) (sdk : bool) :
  (∀ st ev st' acts,
     P st → tabsStep cfg fuel sdk st ev = Some (st', acts) → P st') →
  ∀ evs st st' acts,
    P st → tabsRun cfg fuel sdk st evs = Some (st', acts) → P st'.
Proof.
  intros Hstep evs. induction evs as [|ev evs IH]; intros st st' acts HP Hrun.
  - simpl in Hrun. by simplify_eq.
  - cbn [tabsRun] in Hrun.
    destruct (tabsStep cfg fuel sdk st ev) as [[st1 acts1]|] eqn:E1; [|done].
    simpl in Hrun.
    destruct (tabsRun cfg fuel sdk st1 evs) as [[st2 acts2]|] eqn:E2; [|done].
    simpl in Hrun. simplify_eq. eapply IH; [|done]. by eapply Hstep.
Qed.

(** X18.  Whenever the loading flag is down, so that the dashboards are
    rendered, the filters handed to them carry the date filter: this
    holds after any sequence of events from the initial state. *)
Theorem dashboards_get_date_filter (cfg : TabsConfig) (fuel : nat)
    (sdk : bool) (evs : list TabsEvent) (st : TabsState) (acts : list Action) :
  tabsRun cfg fuel sdk initialTabs evs = Some (st, acts) →
  isLoading st = false →
  is_Some (dashboardFilters (activeFilters st) !! date_name (date_filter cfg)).
Proof.
  intros Hrun.
  apply (tabsRun_invariant
           (λ st, isLoading st = false →
                  is_Some (dashboardFilters (activeFilters st)
                             !! date_name (date_filter cfg)))
           cfg fuel sdk) with (evs := evs) (st := initialTabs) (acts := acts);
    [|done|done].
  clear. intros st ev st' acts HP Hstep. unfold dashboardFilters in *.
  destruct ev; simpl in Hstep.
  - simplify_eq. simpl. destruct sdk; [done|exact HP].
  - destruct (fetchFilterOptions_settled _ _ _ _). by simplify_eq.
  - simplify_eq. simpl. intros _.
    rewrite lookup_fmap, lookup_singleton_eq. by eexists.
  - destruct (handleFilterChange _ _ _ _ _); simplify_eq/=; done.
  - destruct (handleButtonGroupChange _ _ _ _ _); simplify_eq/=; done.
  - by simplify_eq.
  - simplify_eq. intros _.
    rewrite lookup_fmap, handleUpdateClick_lookup, decide_True by done.
    by eexists.
  - by simplify_eq.
Qed.

Lemma dashboards_get_date_filter_witness :
  ∃ st acts,
    tabsRun TABS_CONFIG 6 true initialTabs
      [Mounted; InitialOptionsFetched; FilterChanged "Country" ["USA"];
       UpdateClicked; ResetClicked] = Some (st, acts) ∧
    isLoading st = false ∧
    is_Some (dashboardFilters (activeFilters st)
               !! date_name (date_filter TABS_CONFIG)).
Proof.
  destruct (tabsRun TABS_CONFIG 6 true initialTabs
              [Mounted; InitialOptionsFetched; FilterChanged "Country" ["USA"];
               UpdateClicked; ResetClicked]) as [[st acts]|] eqn:E.
  - assert (Hload : isLoading st = false).
    { vm_compute in E. by simplify_eq. }
    exists st, acts. split; [reflexivity|]. split; [exact Hload|].
    exact (dashboards_get_date_filter TABS_CONFIG 6 true _ st acts E Hload).
  - vm_compute in E. discriminate E.
Defined.

(** X19.  Which transitions write which part of the state: the options
    only when a fetch settles, the date range only when a range is
    selected or on Reset, the staged map only in the two change handlers
    and on Reset, the loading flag only on mount and when the initial
    fetches are done. *)
Theorem tabs_state_writers (cfg : TabsConfig) (fuel : nat) (sdk : bool)
    (st st' : TabsState) (ev : TabsEvent) (acts : list Action) :
  tabsStep cfg fuel sdk st ev = Some (st', acts) →
  (filterOptions st' ≠ filterOptions st →
   ∃ filterName response, ev = FetchSettled filterName response) ∧
  (dateRange st' ≠ dateRange st →
   (∃ range, ev = DateRangeSelected range) ∨ ev = ResetClicked) ∧
  (stagedFilters st' ≠ stagedFilters st →
   (∃ filterName newValues, ev = FilterChanged filterName newValues) ∨
   (∃ filterName value, ev = ButtonGroupChanged filterName value) ∨
   ev = ResetClicked) ∧
  (isLoading st' ≠ isLoading st →
   ev = Mounted ∨ ev = InitialOptionsFetched).
Proof.
  intros Hstep. destruct ev; simpl in Hstep.
  - simplify_eq. repeat split; try done. by left.
  - destruct (fetchFilterOptions_settled _ _ _ _). simplify_eq.
    repeat split; try done. by eexists _, _.
  - simplify_eq. repeat split; try done. by right.
  - destruct (handleFilterChange _ _ _ _ _); simplify_eq/=.
    repeat split; try done. intros _. left. by eexists _, _.
  - destruct (handleButtonGroupChange _ _ _ _ _); simplify_eq/=.
    repeat split; try done. intros _. right. left. by eexists _, _.
  - simplify_eq. repeat split; try done. intros _. left. by eexists.
  - simplify_eq. repeat split; done.
  - simplify_eq. repeat split; try done; intros _; [by right|right; by right].
Qed.

Lemma tabs_state_writers_witness :
  let st' := handleResetClick (withStaged initialTabs exampleStaged) in
  (filterOptions st' ≠ filterOptions (withStaged initialTabs exampleStaged) →
   ∃ filterName response, ResetClicked = FetchSettled filterName response) ∧
  (dateRange st' ≠ dateRange (withStaged initialTabs exampleStaged) →
   (∃ range, ResetClicked = DateRangeSelected range) ∨ ResetClicked = ResetClicked) ∧
  (stagedFilters st' ≠ stagedFilters (withStaged initialTabs exampleStaged) →
   (∃ filterName newValues, ResetClicked = FilterChanged filterName newValues) ∨
   (∃ filterName value, ResetClicked = ButtonGroupChanged filterName value) ∨
   ResetClicked = ResetClicked) ∧
  (isLoading st' ≠ isLoading (withStaged initialTabs exampleStaged) →
   ResetClicked = Mounted ∨ ResetClicked = InitialOptionsFetched).
Proof.
  intros st'.
  apply (tabs_state_writers TABS_CONFIG 6 true
           (withStaged initialTabs exampleStaged) st' ResetClicked
           (cascadeEffect TABS_CONFIG true ∅)).
  reflexivity.
Defined.

(** * Further properties of the dashboard embedder *)

Module DashboardsMore.
Import Dashboards.

#[local] Arguments commit : simpl never.

Lemma commit_coherent (prev : option Embedded) (d : option LookerDashboard)
    (p : EmbeddedDashboardProps) (sdk : option ExtensionSDK) :
  coherent (commit prev d p sdk).1.
Proof. by split. Qed.

Lemma commit_state (prev : option Embedded) (d : option LookerDashboard)
    (p : EmbeddedDashboardProps) (sdk : option ExtensionSDK) :
  (commit prev d p sdk).1
  = {| dashboard := d; props := p; extensionSDK := sdk;
       effectDeps := effectDepsOf d p; refDeps := refDepsOf p sdk |}.
Proof. reflexivity. Qed.

Lemma step_coherent (o : option Embedded) (ev : Event) :
  (∀ st, o = Some st → coherent st) →
  ∀ st', (step o ev).1 = Some st' → coherent st'.
Proof.
  intros Ho st'. destruct ev as [p sdk|d|error]; cbn [step].
  - destruct (commit o (o ≫= dashboard) p sdk) as [st1 acts] eqn:E.
    simpl. intros [= <-].
    change st1 with (st1, acts).1. rewrite <- E. apply commit_coherent.
  - destruct o as [old|]; [|done].
    destruct (commit (Some old) (Some d) (props old) (extensionSDK old))
      as [st1 acts] eqn:E.
    simpl. intros [= <-].
    change st1 with (st1, acts).1. rewrite <- E. apply commit_coherent.
  - simpl. apply Ho.
Qed.

Lemma run_coherent (evs : list Event) (o : option Embedded) :
  (∀ st, o = Some st → coherent st) →
  ∀ st', (run o evs).1 = Some st' → coherent st'.
Proof.
  revert o. induction evs as [|ev evs IH]; intros o Ho st'; [apply Ho|].
  cbn [run].
  pose proof (step_coherent o ev Ho) as H1.
  destruct (step o ev) as [o1 acts1]. simpl in H1.
  pose proof (IH o1 H1 st') as H2.
  destruct (run o1 evs) as [o2 acts2]. exact H2.
Qed.

Lemma reached_coherent (evs : list Event) (st : Embedded) (acts : list Action) :
  run None evs = (Some st, acts) → coherent st.
Proof.
  intros Hrun. apply (run_coherent evs None); [done|]. by rewrite Hrun.
Qed.

Lemma embedCtrRef_detached (p : EmbeddedDashboardProps)
    (sdk : option ExtensionSDK) :
  embedCtrRef p sdk false = [].
Proof. unfold embedCtrRef. by destruct (sdk ≫= hostUrl). Qed.

Lemma embedCtrRef_no_host (p : EmbeddedDashboardProps)
    (sdk : option ExtensionSDK) (el : bool) :
  usableHost sdk = false → embedCtrRef p sdk el = [].
Proof.
  unfold usableHost, embedCtrRef. destruct (sdk ≫= hostUrl); [|done].
  intros ->. by rewrite andb_false_r.
Qed.

Lemma embedCtrRef_paired (p : EmbeddedDashboardProps)
    (sdk : option ExtensionSDK) (el : bool) :
  paired (embedCtrRef p sdk el).
Proof.
  unfold embedCtrRef. destruct (sdk ≫= hostUrl); [|constructor].
  destruct (_ && _); repeat constructor.
Qed.

Lemma filtersEffect_paired (d : option LookerDashboard)
    (p : EmbeddedDashboardProps) :
  paired (filtersEffect d p).
Proof. destruct d; repeat constructor. Qed.

Lemma paired_app (a b : list Action) : paired a → paired b → paired (a ++ b).
Proof. induction 1; intros Hb; simpl; [done|constructor; auto..]. Qed.

Lemma commit_paired (prev : option Embedded) (d : option LookerDashboard)
    (p : EmbeddedDashboardProps) (sdk : option ExtensionSDK) :
  paired (commit prev d p sdk).2.
Proof.
  unfold commit. simpl. apply paired_app.
  - destruct prev as [old|]; [|apply embedCtrRef_paired].
    case_bool_decide; [constructor|].
    apply paired_app; apply embedCtrRef_paired.
  - destruct prev as [old|]; [|apply filtersEffect_paired].
    case_bool_decide; [constructor|apply filtersEffect_paired].
Qed.

Lemma step_paired (o : option Embedded) (ev : Event) : paired (step o ev).2.
Proof.
  destruct ev as [p sdk|d|error]; cbn [step].
  - pose proof (commit_paired o (o ≫= dashboard) p sdk) as H.
    by destruct (commit _ _ _ _).
  - destruct o as [old|]; [|constructor].
    pose proof (commit_paired (Some old) (Some d) (props old) (extensionSDK old)) as H.
    by destruct (commit _ _ _ _).
  - repeat constructor.
Qed.

(** X20.  Whatever is rendered, resolved or rejected, from any state,
    the embedder's actions come in the source's pairs: every
    [updateFilters] is immediately followed by [run] on the same handle,
    every [init] by a [connect], and no [run] or [connect] stands alone. *)
Theorem run_actions_paired (o : option Embedded) (evs : list Event) :
  paired (run o evs).2.
Proof.
  revert o. induction evs as [|ev evs IH]; intros o; [constructor|].
  cbn [run]. pose proof (step_paired o ev) as H1.
  destruct (step o ev) as [o1 acts1]. pose proof (IH o1) as H2.
  destruct (run o1 evs) as [o2 acts2]. simpl in *. by apply paired_app.
Qed.

Lemma embedCtrRef_no_push (p : EmbeddedDashboardProps)
    (sdk : option ExtensionSDK) (el : bool) :
  filter (λ x, Is_true (isPush x)) (embedCtrRef p sdk el) = [].
Proof.
  unfold embedCtrRef. destruct (sdk ≫= hostUrl); [|done].
  by destruct (_ && _).
Qed.

Lemma commit_no_push (prev : option Embedded) (p : EmbeddedDashboardProps)
    (sdk : option ExtensionSDK) :
  filter (λ x, Is_true (isPush x)) (commit prev None p sdk).2 = [].
Proof.
  unfold commit. cbn [snd]. rewrite filter_app.
  assert (Href : ∀ l : list Action,
            filter (λ x, Is_true (isPush x)) l = [] →
            filter (λ x, Is_true (isPush x))
              (match prev with
               | Some old =>
                   if bool_decide (refDeps old = refDepsOf p sdk) then []
                   else embedCtrRef (props old) (extensionSDK old) false ++ l
               | None => l
               end) = []).
  { intros l Hl. destruct prev as [old|]; [|done].
    case_bool_decide; [done|]. by rewrite filter_app, embedCtrRef_no_push, Hl. }
  rewrite (Href _ (embedCtrRef_no_push p sdk true)). clear Href.
  destruct prev as [old|]; [case_bool_decide|]; done.
Qed.

(** X21.  Before a connection has resolved nothing is pushed: a run from
    the unmounted component without a [Connected] event performs no
    [updateFilters] and no [run], however often the filters change. *)
Theorem nothing_pushed_before_connected (evs : list Event) :
  Forall (λ ev, isConnected ev = false) evs →
  filter (λ x, Is_true (isPush x)) (run None evs).2 = [].
Proof.
  assert (Hgen : ∀ evs o,
            o ≫= dashboard = None →
            Forall (λ ev, isConnected ev = false) evs →
            filter (λ x, Is_true (isPush x)) (run o evs).2 = []).
  { clear evs. intros evs. induction evs as [|ev evs IH]; intros o Ho Hevs; [done|].
    apply Forall_cons in Hevs as [Hev Hevs]. cbn [run].
    assert (Hstep : (step o ev).1 ≫= dashboard = None ∧
                    filter (λ x, Is_true (isPush x)) (step o ev).2 = []).
    { destruct ev as [p sdk|d|error]; [|done|].
      - cbn [step]. rewrite Ho.
        pose proof (commit_no_push o p sdk) as Hc.
        pose proof (commit_state o None p sdk) as Hs.
        destruct (commit o None p sdk) as [st1 acts1]. simpl in *.
        by subst st1.
      - by split. }
    destruct Hstep as [Hst1 Hacts1].
    destruct (step o ev) as [o1 acts1]. simpl in Hst1, Hacts1.
    pose proof (IH o1 Hst1 Hevs) as H2.
    destruct (run o1 evs) as [o2 acts2]. simpl in *.
    by rewrite filter_app, Hacts1, H2. }
  intros Hevs. by apply Hgen.
Qed.

Lemma nothing_pushed_before_connected_witness :
  let sdk0 := Some {| sdk_address := 0; hostUrl := Some "https://looker.example" |} in
  let props0 := {| id := "d1";
                   filters := {| address := 0; entries := ∅ |} |} in
  let props1 := {| id := "d1";
                   filters := {| address := 1;
                                 entries := {[ "Country" := "USA" ]} |} |} in
  filter (λ x, Is_true (isPush x))
    (run None [Rendered props0 sdk0; Rendered props1 sdk0;
               ConnectFailed "timeout"; Rendered props0 sdk0]).2 = [].
Proof.
  intros sdk0 props0 props1.
  apply (nothing_pushed_before_connected
           [Rendered props0 sdk0; Rendered props1 sdk0;
            ConnectFailed "timeout"; Rendered props0 sdk0]).
  repeat constructor.
Defined.

Lemma commit_no_connect (prev : option Embedded) (d : option LookerDashboard)
    (p : EmbeddedDashboardProps) (sdk : option ExtensionSDK) :
  usableHost sdk = false → connects (commit prev d p sdk).2 = [].
Proof.
  intros Hsdk. unfold commit, connects. cbn [snd]. rewrite filter_app.
  rewrite (embedCtrRef_no_host p sdk true Hsdk).
  assert (filter (λ a, Is_true (isConnect a))
            (match prev with
             | Some old =>
                 if bool_decide (refDeps old = refDepsOf p sdk) then []
                 else embedCtrRef (props old) (extensionSDK old) false ++ []
             | None => []
             end) = []) as ->.
  { destruct prev as [old|]; [|done]. case_bool_decide; [done|].
    by rewrite embedCtrRef_detached. }
  destruct prev as [old|]; [case_bool_decide|]; by destruct d.
Qed.

(** X22.  Without a usable host URL the embedder never opens a
    connection, whatever is rendered and however often. *)
Theorem no_host_no_connection (evs : list Event) :
  Forall rendersWithoutHost evs →
  connects (run None evs).2 = [].
Proof.
  assert (Hgen : ∀ evs o,
            (∀ st, o = Some st → usableHost (extensionSDK st) = false) →
            Forall rendersWithoutHost evs →
            connects (run o evs).2 = []).
  { clear evs. intros evs. induction evs as [|ev evs IH]; intros o Ho Hevs; [done|].
    apply Forall_cons in Hevs as [Hev Hevs]. cbn [run].
    assert (Hstep : (∀ st, (step o ev).1 = Some st →
                           usableHost (extensionSDK st) = false) ∧
                    connects (step o ev).2 = []).
    { destruct ev as [p sdk|d|error].
      - cbn [step]. simpl in Hev.
        pose proof (commit_no_connect o (o ≫= dashboard) p sdk Hev) as Hc.
        pose proof (commit_state o (o ≫= dashboard) p sdk) as Hs.
        destruct (commit o (o ≫= dashboard) p sdk) as [st1 acts1]. simpl in *.
        split; [|done]. intros st [= <-]. by subst st1.
      - cbn [step]. destruct o as [old|]; [|done].
        pose proof (commit_no_connect (Some old) (Some d) (props old)
                      (extensionSDK old) (Ho old eq_refl)) as Hc.
        pose proof (commit_state (Some old) (Some d) (props old)
                      (extensionSDK old)) as Hs.
        destruct (commit (Some old) (Some d) (props old) (extensionSDK old))
          as [st1 acts1]. simpl in *.
        split; [|done]. intros st [= <-]. subst st1. simpl. by apply Ho.
      - simpl. split; [exact Ho|done]. }
    destruct Hstep as [Hst1 Hacts1].
    destruct (step o ev) as [o1 acts1]. simpl in Hst1, Hacts1.
    pose proof (IH o1 Hst1 Hevs) as H2.
    destruct (run o1 evs) as [o2 acts2]. simpl in *.
    unfold connects in *. by rewrite filter_app, Hacts1, H2. }
  intros Hevs. by apply Hgen.
Qed.

Lemma no_host_no_connection_witness :
  let noUrl := Some {| sdk_address := 0; hostUrl := None |} in
  let emptyUrl := Some {| sdk_address := 1; hostUrl := Some "" |} in
  let props0 := {| id := "d1";
                   filters := {| address := 0; entries := ∅ |} |} in
  connects (run None [Rendered props0 None; Rendered props0 noUrl;
                      Rendered props0 emptyUrl; Connected 3]).2 = [].
Proof.
  intros noUrl emptyUrl props0.
  apply (no_host_no_connection
           [Rendered props0 None; Rendered props0 noUrl;
            Rendered props0 emptyUrl; Connected 3]).
  repeat constructor.
Defined.

(** X23.  When the connection resolves, the filters of the latest render
    are pushed to the new handle at once, so a change made while the
    connection was pending is not lost. *)
Theorem connected_pushes_current_filters (evs : list Event) (st : Embedded)
    (acts : list Action) (d : LookerDashboard) :
  run None evs = (Some st, acts) →
  dashboard st ≠ Some d →
  (step (Some st) (Connected d)).2
    = [UpdateFilters d (entries (filters (props st))); Run d] ∧
  ((step (Some st) (Connected d)).1 ≫= dashboard) = Some d.
Proof.
  intros Hrun Hd. destruct (reached_coherent evs st acts Hrun) as [Href Heff].
  cbn [step]. unfold commit. simpl.
  rewrite bool_decide_true by done.
  rewrite bool_decide_false; [done|].
  rewrite Heff. unfold effectDepsOf. intros H. by simplify_eq.
Qed.

Lemma connected_pushes_current_filters_witness :
  let sdk0 := Some {| sdk_address := 0; hostUrl := Some "https://looker.example" |} in
  let props0 := {| id := "d1";
                   filters := {| address := 0; entries := ∅ |} |} in
  let props1 := {| id := "d1";
                   filters := {| address := 1;
                                 entries := {[ "Country" := "USA" ]} |} |} in
  let st := {| dashboard := None; props := props1; extensionSDK := sdk0;
               effectDeps := effectDepsOf None props1;
               refDeps := refDepsOf props1 sdk0 |} in
  (step (Some st) (Connected 7)).2
    = [UpdateFilters 7 (entries (filters (props st))); Run 7] ∧
  ((step (Some st) (Connected 7)).1 ≫= dashboard) = Some 7.
Proof.
  intros sdk0 props0 props1 st.
  apply (connected_pushes_current_filters
           [Rendered props0 sdk0; Rendered props1 sdk0] st
           [Init "https://looker.example"; Connect "d1" "Custom" ∅] 7).
  - reflexivity.
  - discriminate.
Defined.

(** X24.  A render that brings the same filter object, dashboard id and
    extension SDK as the one before performs no action at all. *)
Theorem rerender_same_props_is_silent (evs : list Event) (st : Embedded)
    (acts : list Action) (p : EmbeddedDashboardProps) :
  run None evs = (Some st, acts) →
  id p = id (props st) →
  address (filters p) = address (filters (props st)) →
  (step (Some st) (Rendered p (extensionSDK st))).2 = [].
Proof.
  intros Hrun Hid Haddr.
  destruct (reached_coherent evs st acts Hrun) as [Href Heff].
  cbn [step]. unfold commit. simpl.
  rewrite bool_decide_true.
  2:{ rewrite Href. unfold refDepsOf. by rewrite Hid. }
  rewrite bool_decide_true; [done|].
  rewrite Heff. unfold effectDepsOf. by rewrite Haddr.
Qed.

Lemma rerender_same_props_is_silent_witness :
  let sdk0 := Some {| sdk_address := 0; hostUrl := Some "https://looker.example" |} in
  let props0 := {| id := "d1";
                   filters := {| address := 0; entries := ∅ |} |} in
  let st := {| dashboard := Some 7; props := props0; extensionSDK := sdk0;
               effectDeps := effectDepsOf (Some 7) props0;
               refDeps := refDepsOf props0 sdk0 |} in
  (step (Some st) (Rendered props0 (extensionSDK st))).2 = [].
Proof.
  intros sdk0 props0 st.
  apply (rerender_same_props_is_silent
           [Rendered props0 sdk0; Connected 7] st
           [Init "https://looker.example"; Connect "d1" "Custom" ∅;
            UpdateFilters 7 ∅; Run 7] props0); reflexivity.
Defined.

(** X25.  A render with a different dashboard id, a host URL at hand,
    opens a new connection for the new id with the filters of that
    render. *)
Theorem new_id_reconnects (evs : list Event) (st : Embedded)
    (acts : list Action) (p : EmbeddedDashboardProps)
    (sdk : option ExtensionSDK) (url : string) :
  run None evs = (Some st, acts) →
  id p ≠ id (props st) →
  sdk ≫= hostUrl = Some url → url ≠ "" →
  ∃ rest,
    (step (Some st) (Rendered p sdk)).2
      = Init url :: Connect (id p) "Custom" (entries (filters p)) :: rest.
Proof.
  intros Hrun Hid Hurl Hne.
  destruct (reached_coherent evs st acts Hrun) as [Href Heff].
  cbn [step]. unfold commit. simpl.
  rewrite bool_decide_false.
  2:{ rewrite Href. unfold refDepsOf. intros H. by simplify_eq. }
  rewrite embedCtrRef_detached. unfold embedCtrRef. rewrite Hurl. simpl.
  rewrite bool_decide_false by done. simpl. by eexists.
Qed.

Lemma new_id_reconnects_witness :
  let sdk0 := Some {| sdk_address := 0; hostUrl := Some "https://looker.example" |} in
  let props0 := {| id := "d1";
                   filters := {| address := 0; entries := ∅ |} |} in
  let props1 := {| id := "d2";
                   filters := {| address := 0; entries := ∅ |} |} in
  let st := {| dashboard := None; props := props0; extensionSDK := sdk0;
               effectDeps := effectDepsOf None props0;
               refDeps := refDepsOf props0 sdk0 |} in
  ∃ rest,
    (step (Some st) (Rendered props1 sdk0)).2
      = Init "https://looker.example"
        :: Connect (id props1) "Custom" (entries (filters props1)) :: rest.
Proof.
  intros sdk0 props0 props1 st.
  apply (new_id_reconnects [Rendered props0 sdk0] st
           [Init "https://looker.example"; Connect "d1" "Custom" ∅]
           props1 sdk0 "https://looker.example").
  - reflexivity.
  - discriminate.
  - reflexivity.
  - discriminate.
Defined.

End DashboardsMore.
